(** * Nexus Luma AI widget: the Shadow-DOM custom element and the iframe host

    A shallow embedding of the two browser components of the repository,

    - [Widget]: the custom element [<nxl-ai-widget>] (class
      [NexusLumaAIWidget]), with its panel state, its handle on the
      third-party voice client, the talk toggle and the text composer;
    - [Host]: the page-level loader [NXL.mountIframeWidget], with the
      floating button, the frame and the tagged window messages,

    followed by the properties of these two components.

    Conventions.  A JavaScript string is a [string], each character
    being one code unit in the range 0..255; the credentials handed to
    the loader, which may hold any code unit, are [Js.wide] strings.  An
    object mutated in place
    is a record threaded through the functions; a statement that may
    throw returns the mutated object together with an [outcome], since in
    JavaScript the writes made before a [throw] persist.  An [async]
    function is a resumption: it runs up to its next [await], and is
    resumed later with the reply and with the object as it is then. *)

From Stdlib Require Import String Ascii ZArith NArith List Bool Lia.
From stdpp Require Import base strings gmap list.
Import ListNotations.
Open Scope string_scope.
Open Scope nat_scope.

(** ** The fragment of JavaScript the two components rely on *)

Module Js.

(** *** Strings *)

(** [!s] for a string: only the empty string is falsy. *)
Definition is_empty (s : string) : bool :=
  match s with EmptyString => true | String _ _ => false end.

(** White space and line terminators of [String.prototype.trim], among
    the code units below 256: TAB, LF, VT, FF, CR, SP and NBSP. *)
Definition is_white (c : ascii) : bool :=
  let n := nat_of_ascii c in
  ((9 <=? n) && (n <=? 13)) || (n =? 32) || (n =? 160).

Fixpoint trim_start (s : string) : string :=
  match s with
  | EmptyString => EmptyString
  | String c s' => if is_white c then trim_start s' else s
  end.

(** Drops the white space at the end: a character is kept when it is not
    white or when something is kept after it. *)
Fixpoint trim_end (s : string) : string :=
  match s with
  | EmptyString => EmptyString
  | String c s' =>
      match trim_end s' with
      | EmptyString => if is_white c then EmptyString else String c EmptyString
      | rest => String c rest
      end
  end.

Definition trim (s : string) : string := trim_end (trim_start s).

(** A string made of white space only (the empty string included). *)
Fixpoint all_white (s : string) : bool :=
  match s with
  | EmptyString => true
  | String c s' => is_white c && all_white s'
  end.

(** [haystack.startsWith(needle)] *)
Fixpoint starts_with (needle s : string) : bool :=
  match needle, s with
  | EmptyString, _ => true
  | String a n', String b s' => if Ascii.eqb a b then starts_with n' s' else false
  | String _ _, EmptyString => false
  end.

(** [s.includes(needle)] *)
Fixpoint includes (needle s : string) : bool :=
  starts_with needle s ||
  match s with
  | EmptyString => false
  | String _ s' => includes needle s'
  end.

(** [s.toLowerCase()] on code units below 256: A-Z, and the accented
    capitals U+00C0..U+00DE except the multiplication sign U+00D7. *)
Definition lower_char (c : ascii) : ascii :=
  let n := nat_of_ascii c in
  if ((65 <=? n) && (n <=? 90)) ||
     ((192 <=? n) && (n <=? 222) && negb (n =? 215))
  then ascii_of_nat (n + 32) else c.

Fixpoint toLowerCase (s : string) : string :=
  match s with
  | EmptyString => EmptyString
  | String c s' => String (lower_char c) (toLowerCase s')
  end.

(** *** [encodeURIComponent] *)

Definition hex_digit (n : nat) : ascii :=
  if n <? 10 then ascii_of_nat (48 + n) else ascii_of_nat (55 + n).

(** [%XX] for one byte of the UTF-8 encoding. *)
Definition percent (byte : nat) : string :=
  String "%" (String (hex_digit (byte / 16)) (String (hex_digit (byte mod 16)) EmptyString)).

(** The characters left as they are: letters, digits and [- _ . ! ~ * ' ( )]. *)
Definition is_unreserved (c : ascii) : bool :=
  let n := nat_of_ascii c in
  ((65 <=? n) && (n <=? 90)) || ((97 <=? n) && (n <=? 122)) ||
  ((48 <=? n) && (n <=? 57)) ||
  (n =? 45) || (n =? 95) || (n =? 46) || (n =? 33) || (n =? 126) ||
  (n =? 42) || (n =? 39) || (n =? 40) || (n =? 41).

(** A code unit below 128 is one UTF-8 byte, one in 128..255 is two. *)
Definition encode_char (c : ascii) : string :=
  let n := nat_of_ascii c in
  if is_unreserved c then String c EmptyString
  else if n <? 128 then percent n
  else percent (192 + n / 64) +:+ percent (128 + n mod 64).

Fixpoint encode_string (s : string) : string :=
  match s with
  | EmptyString => EmptyString
  | String c s' => encode_char c +:+ encode_string s'
  end.

(** *** Strings with code units above 255

    A string in full: each code unit is kept as its high and its low
    byte. *)
Definition unit16 : Type := (ascii * ascii)%type.

Definition wide : Type := list unit16.

Definition code (u : unit16) : N := (256 * N_of_ascii (fst u) + N_of_ascii (snd u))%N.

(** A string of code units below 256, as a wide one. *)
Fixpoint widen (s : string) : wide :=
  match s with
  | EmptyString => []
  | String c s' => (zero, c) :: widen s'
  end.

(** [!w]: only the empty string is falsy. *)
Definition no_units (w : wide) : bool :=
  match w with [] => true | _ :: _ => false end.

(** U+D800..U+DBFF and U+DC00..U+DFFF. *)
Definition is_high_surrogate (n : N) : bool := ((55296 <=? n) && (n <? 56320))%N.

Definition is_low_surrogate (n : N) : bool := ((56320 <=? n) && (n <? 57344))%N.

(** The code point a surrogate pair stands for. *)
Definition code_point (high low : N) : N :=
  (65536 + (high - 55296) * 1024 + (low - 56320))%N.

(** The escapes of the two, three and four bytes of a UTF-8 sequence. *)
Definition escape (byte : N) : string := percent (N.to_nat byte).

Definition escape2 (n : N) : string :=
  (escape (192 + n / 64) +:+ escape (128 + n mod 64))%N.

Definition escape3 (n : N) : string :=
  (escape (224 + n / 4096) +:+ escape (128 + (n / 64) mod 64)
     +:+ escape (128 + n mod 64))%N.

Definition escape4 (n : N) : string :=
  (escape (240 + n / 262144) +:+ escape (128 + (n / 4096) mod 64)
     +:+ escape (128 + (n / 64) mod 64) +:+ escape (128 + n mod 64))%N.

(** [encodeURIComponent] on a string: a high surrogate is read with the
    low surrogate that follows it, and a surrogate that is not part of
    such a pair raises a [URIError] ([None]). *)
Fixpoint encode_units (w : wide) : option string :=
  match w with
  | [] => Some EmptyString
  | u :: rest =>
      let n := code u in
      if (n <? 256)%N
      then option_map (String.append (encode_char (snd u))) (encode_units rest)
      else if (n <? 2048)%N
      then option_map (String.append (escape2 n)) (encode_units rest)
      else if is_high_surrogate n
      then match rest with
           | v :: rest' =>
               if is_low_surrogate (code v)
               then option_map (String.append (escape4 (code_point n (code v))))
                      (encode_units rest')
               else None
           | [] => None
           end
      else if is_low_surrogate n then None
      else option_map (String.append (escape3 n)) (encode_units rest)
  end.

(** The argument is first converted to a string: an absent credential
    ([undefined]) reads "undefined". *)
Definition encodeURIComponent (v : option wide) : option string :=
  encode_units (default (widen "undefined") v).


(** *** Plain values

    The data of a message event is a structured clone: plain data, no
    accessors and no functions.  Numbers are kept to the integers and
    NaN, which is all that truthiness inspects here.  The same values
    stand for what a caller may pass as the [position] of the loader. *)

#[warnings="-register-all"]
Inductive value :=
| VUndefined
| VNull
| VBool (b : bool)
| VNum (n : Z)
| VNaN
| VStr (s : string)
| VObj (fields : gmap string value).

(** [!!v] *)
Definition truthy (v : value) : bool :=
  match v with
  | VUndefined | VNull | VNaN => false
  | VBool b => b
  | VNum n => negb (n =? 0)%Z
  | VStr s => negb (is_empty s)
  | VObj _ => true
  end.

(** [v.k] for a [v] that is neither [undefined] nor [null] (the callers
    test [v] first); a primitive has none of the properties read here. *)
Definition get (v : value) (k : string) : value :=
  match v with
  | VObj fields => default VUndefined (fields !! k)
  | _ => VUndefined
  end.

(** [v === 'lit'] *)
Definition is_string (v : value) (lit : string) : bool :=
  match v with
  | VStr s => String.eqb s lit
  | _ => false
  end.

(** [a && b], with [b] evaluated only when [a] is truthy. *)
Definition and_then (a : value) (b : value -> value) : value :=
  if truthy a then b a else a.

(** An object literal [{ k1: v1, ... }]. *)
Definition object (fields : list (string * value)) : value :=
  VObj (list_to_map fields).

(** *** Arguments of any type

    A function that expects a text is handed whatever the caller passes:
    a string, or a value of another type.  Of the latter the code sees the
    truthiness and the conversion [String(...)], which gives a string or
    throws (a Symbol, an object whose [toString] throws); the conversion
    is taken to touch nothing else. *)
Inductive loose :=
| Text (s : string)
| NotText (truthy : bool) (converted : option string).

(** [!!t] *)
Definition is_truthy (t : loose) : bool :=
  match t with
  | Text s => negb (is_empty s)
  | NotText truthy _ => truthy
  end.

(** [t || ''] *)
Definition or_empty (t : loose) : loose :=
  if is_truthy t then t else Text "".

(** [String(t)] *)
Definition to_String (t : loose) : option string :=
  match t with
  | Text s => Some s
  | NotText _ converted => converted
  end.

End Js.

(** ** DOM token lists *)

Module ClassList.

(** [el.classList]: a set of class names. *)
Definition add (name : string) (cl : gset string) : gset string := {[ name ]} ∪ cl.
Definition remove (name : string) (cl : gset string) : gset string := cl ∖ {[ name ]}.
Definition contains (name : string) (cl : gset string) : bool := bool_decide (name ∈ cl).

(** [classList.toggle(name, force)] *)
Definition toggle_force (name : string) (force : bool) (cl : gset string) : gset string :=
  if force then add name cl else remove name cl.

(** [classList.toggle(name)] *)
Definition toggle (name : string) (cl : gset string) : gset string :=
  toggle_force name (negb (contains name cl)) cl.

End ClassList.

(** ** The embedded widget: class [NexusLumaAIWidget] *)

Module Widget.

Definition VAPI_CDN : string :=
  "https://cdn.jsdelivr.net/npm/@vapi-ai/web@latest/dist/vapi.js".

(** *** Exceptions and the console *)

Inductive exn :=
| TypeError (what : string)
| Failure (what : string).

Inductive outcome :=
| Normal
| Thrown (e : exn).

Inductive level := LWarn | LError.

(** *** The third-party client

    Every method is an optional slot.  [vapi_on] tells, when present,
    for which event names the subscription returns ([true]) and for
    which it throws ([false]).  What a call to [start], [stop] or
    [sendText] does is not decided here: it is the [reply] with which
    the suspended caller is resumed. *)

Record Client := {
  vapi_on : option (string -> bool);
  vapi_start : bool;
  vapi_connectToAssistant : bool;
  vapi_stop : bool;
  vapi_sendText : bool
}.

(** [window.Vapi]: the constructor, applied to the public key, yields a
    client or throws ([None]). *)
Record Sdk := { construct : option string -> option Client }.

(** *** The elements of the shadow tree and their listeners *)

Inductive target := Fab | Close | Mic | ModeSwitch | Send | TextInput.

Inductive handler :=
| HToggle
| HClose
| HToggleMic (assistantId : option string)
| HToggleMode
| HSendText
| HSendOnEnter.

Record listener := {
  on_target : target;
  on_type : string;
  on_run : handler
}.

(** [this._elements] once [_render] has filled it. *)
Record Elements := {
  fab : gset string;
  panel : gset string;
  mic : gset string;
  projection : string;
  status : string;
  modeSwitch : string;
  chat : list (string * string);
  textInput : string;
  listeners : list listener
}.

(** The element, with the two pieces of the page it reads and writes:
    the global [window.Vapi] and the console. *)
Record widget := {
  _isOpen : bool;
  _isConnected : bool;
  _isListening : bool;
  _elements : option Elements;
  _vapi : option Client;
  _mounted : bool;
  attributes : gmap string string;
  subscriptions : list string;
  window_Vapi : option Sdk;
  console : list (level * string)
}.

Definition set_fab (f : gset string -> gset string) (e : Elements) : Elements :=
  {| fab := f (fab e); panel := panel e; mic := mic e; projection := projection e;
     status := status e; modeSwitch := modeSwitch e; chat := chat e;
     textInput := textInput e; listeners := listeners e |}.

Definition set_panel (f : gset string -> gset string) (e : Elements) : Elements :=
  {| fab := fab e; panel := f (panel e); mic := mic e; projection := projection e;
     status := status e; modeSwitch := modeSwitch e; chat := chat e;
     textInput := textInput e; listeners := listeners e |}.

Definition set_mic (f : gset string -> gset string) (e : Elements) : Elements :=
  {| fab := fab e; panel := panel e; mic := f (mic e); projection := projection e;
     status := status e; modeSwitch := modeSwitch e; chat := chat e;
     textInput := textInput e; listeners := listeners e |}.

Definition set_projection (v : string) (e : Elements) : Elements :=
  {| fab := fab e; panel := panel e; mic := mic e; projection := v;
     status := status e; modeSwitch := modeSwitch e; chat := chat e;
     textInput := textInput e; listeners := listeners e |}.

Definition set_status (v : string) (e : Elements) : Elements :=
  {| fab := fab e; panel := panel e; mic := mic e; projection := projection e;
     status := v; modeSwitch := modeSwitch e; chat := chat e;
     textInput := textInput e; listeners := listeners e |}.

Definition set_modeSwitch (v : string) (e : Elements) : Elements :=
  {| fab := fab e; panel := panel e; mic := mic e; projection := projection e;
     status := status e; modeSwitch := v; chat := chat e;
     textInput := textInput e; listeners := listeners e |}.

Definition set_chat (f : list (string * string) -> list (string * string))
    (e : Elements) : Elements :=
  {| fab := fab e; panel := panel e; mic := mic e; projection := projection e;
     status := status e; modeSwitch := modeSwitch e; chat := f (chat e);
     textInput := textInput e; listeners := listeners e |}.

Definition set_textInput (v : string) (e : Elements) : Elements :=
  {| fab := fab e; panel := panel e; mic := mic e; projection := projection e;
     status := status e; modeSwitch := modeSwitch e; chat := chat e;
     textInput := v; listeners := listeners e |}.

Definition set_listeners (f : list listener -> list listener) (e : Elements) : Elements :=
  {| fab := fab e; panel := panel e; mic := mic e; projection := projection e;
     status := status e; modeSwitch := modeSwitch e; chat := chat e;
     textInput := textInput e; listeners := f (listeners e) |}.

Definition set_isOpen (b : bool) (w : widget) : widget :=
  {| _isOpen := b; _isConnected := _isConnected w; _isListening := _isListening w;
     _elements := _elements w; _vapi := _vapi w; _mounted := _mounted w;
     attributes := attributes w; subscriptions := subscriptions w;
     window_Vapi := window_Vapi w; console := console w |}.

Definition set_isConnected (b : bool) (w : widget) : widget :=
  {| _isOpen := _isOpen w; _isConnected := b; _isListening := _isListening w;
     _elements := _elements w; _vapi := _vapi w; _mounted := _mounted w;
     attributes := attributes w; subscriptions := subscriptions w;
     window_Vapi := window_Vapi w; console := console w |}.

Definition set_isListening (b : bool) (w : widget) : widget :=
  {| _isOpen := _isOpen w; _isConnected := _isConnected w; _isListening := b;
     _elements := _elements w; _vapi := _vapi w; _mounted := _mounted w;
     attributes := attributes w; subscriptions := subscriptions w;
     window_Vapi := window_Vapi w; console := console w |}.

Definition set_elements (e : option Elements) (w : widget) : widget :=
  {| _isOpen := _isOpen w; _isConnected := _isConnected w; _isListening := _isListening w;
     _elements := e; _vapi := _vapi w; _mounted := _mounted w;
     attributes := attributes w; subscriptions := subscriptions w;
     window_Vapi := window_Vapi w; console := console w |}.

Definition set_vapi (c : option Client) (w : widget) : widget :=
  {| _isOpen := _isOpen w; _isConnected := _isConnected w; _isListening := _isListening w;
     _elements := _elements w; _vapi := c; _mounted := _mounted w;
     attributes := attributes w; subscriptions := subscriptions w;
     window_Vapi := window_Vapi w; console := console w |}.

Definition set_mounted (b : bool) (w : widget) : widget :=
  {| _isOpen := _isOpen w; _isConnected := _isConnected w; _isListening := _isListening w;
     _elements := _elements w; _vapi := _vapi w; _mounted := b;
     attributes := attributes w; subscriptions := subscriptions w;
     window_Vapi := window_Vapi w; console := console w |}.

Definition set_attributes (f : gmap string string -> gmap string string)
    (w : widget) : widget :=
  {| _isOpen := _isOpen w; _isConnected := _isConnected w; _isListening := _isListening w;
     _elements := _elements w; _vapi := _vapi w; _mounted := _mounted w;
     attributes := f (attributes w); subscriptions := subscriptions w;
     window_Vapi := window_Vapi w; console := console w |}.

Definition set_subscriptions (f : list string -> list string) (w : widget) : widget :=
  {| _isOpen := _isOpen w; _isConnected := _isConnected w; _isListening := _isListening w;
     _elements := _elements w; _vapi := _vapi w; _mounted := _mounted w;
     attributes := attributes w; subscriptions := f (subscriptions w);
     window_Vapi := window_Vapi w; console := console w |}.

Definition set_console (f : list (level * string) -> list (level * string))
    (w : widget) : widget :=
  {| _isOpen := _isOpen w; _isConnected := _isConnected w; _isListening := _isListening w;
     _elements := _elements w; _vapi := _vapi w; _mounted := _mounted w;
     attributes := attributes w; subscriptions := subscriptions w;
     window_Vapi := window_Vapi w; console := f (console w) |}.

(** *** Statements: state and exceptions *)

Definition act : Type := widget -> outcome * widget.

Definition skip : act := fun w => (Normal, w).

Definition throw (e : exn) : act := fun w => (Thrown e, w).

Definition seq (a b : act) : act :=
  fun w => match a w with
           | (Normal, w1) => b w1
           | (Thrown e, w1) => (Thrown e, w1)
           end.

(** [try { body } catch (err) { recover }] *)
Definition try_catch (body : act) (recover : exn -> act) : act :=
  fun w => match body w with
           | (Normal, w1) => (Normal, w1)
           | (Thrown e, w1) => recover e w1
           end.

Definition modify (f : widget -> widget) : act := fun w => (Normal, f w).

(** A read or write through [this._elements.x]: a [TypeError] while
    [_elements] is still the empty object. *)
Definition on_elements (f : Elements -> Elements) : act :=
  fun w => match _elements w with
           | Some e => (Normal, set_elements (Some (f e)) w)
           | None => (Thrown (TypeError "Cannot read properties of undefined"), w)
           end.

Definition console_warn (text : string) : act :=
  modify (set_console (fun c => (c ++ [(LWarn, text)])%list)).

Definition console_error (text : string) : act :=
  modify (set_console (fun c => (c ++ [(LError, text)])%list)).

Declare Scope act_scope.
Delimit Scope act_scope with act.
Bind Scope act_scope with act.
Notation "a ;; b" := (seq a b)
  (at level 100, b at level 200, right associativity) : act_scope.
Local Open Scope act_scope.

(** *** Attributes *)

Definition observedAttributes : list string :=
  ["open"; "theme"; "position"; "public-key"; "assistant-id"].

Definition getAttribute (name : string) (w : widget) : option string :=
  attributes w !! name.

(** [!v] for the result of [getAttribute]: [null] and the empty string. *)
Definition missing (v : option string) : bool :=
  match v with
  | None => true
  | Some s => Js.is_empty s
  end.

(** [v || d] *)
Definition or_else (v : option string) (d : string) : string :=
  if missing v then d else default d v.

(** [this.hasAttribute('open') && this.getAttribute('open') !== 'false'] *)
Definition open_requested (w : widget) : bool :=
  match getAttribute "open" w with
  | Some v => negb (String.eqb v "false")
  | None => false
  end.

(** [el.toggleAttribute(name, force)] *)
Definition toggleAttribute (name : string) (force : bool)
    (m : gmap string string) : gmap string string :=
  if force
  then match m !! name with Some _ => m | None => <[name := ""]> m end
  else delete name m.

Definition _applyTheme : act :=
  fun w =>
    let theme := Js.toLowerCase (or_else (getAttribute "theme" w) "dark") in
    modify (set_attributes (fun m =>
      toggleAttribute "data-theme-light" (String.eqb theme "light")
        (toggleAttribute "data-theme-dark" (String.eqb theme "dark") m))) w.

Definition _applyPosition : act :=
  fun w =>
    let pos := Js.toLowerCase (or_else (getAttribute "position" w) "bottom-right") in
    modify (set_attributes (fun m => <["data-pos" := pos]> m)) w.

(** *** Rendering and the small helpers *)

(** The shadow tree built from the template of [_render]. *)
Definition rendered : Elements :=
  {| fab := {[ "fab" ]}; panel := {[ "panel" ]}; mic := {[ "mic" ]};
     projection := ""; status := "Idle"; modeSwitch := "Text";
     chat := []; textInput := ""; listeners := [] |}.

Definition _render : act := modify (set_elements (Some rendered)).

Definition _setStatus (s : string) : act := on_elements (set_status s).

Definition _pulse (on : bool) : act :=
  on_elements (set_fab (ClassList.toggle_force "pulsing" on)).

Definition _flashProjectionLine (on : bool) : act :=
  on_elements (set_projection (if on then "1" else "0")).

Definition _appendMsg (type content : string) : act :=
  on_elements (set_chat (fun c => (c ++ [("msg " +:+ type, content)])%list)).

(** *** Public API *)

Definition open : act :=
  modify (set_isOpen true) ;;
  on_elements (set_panel (ClassList.add "open")) ;;
  on_elements (set_fab (ClassList.add "active")) ;;
  _flashProjectionLine true.

Definition close : act :=
  modify (set_isOpen false) ;;
  on_elements (set_panel (ClassList.remove "open")) ;;
  on_elements (set_fab (ClassList.remove "active")) ;;
  _flashProjectionLine false.

Definition toggle : act :=
  fun w => if _isOpen w then close w else open w.

Definition attributeChangedCallback (name : string) : act :=
  fun w =>
    if negb (_mounted w) then skip w
    else
      ((if String.eqb name "open"
        then (fun w1 => if open_requested w1 then open w1 else close w1)
        else skip) ;;
       (if String.eqb name "theme" then _applyTheme else skip) ;;
       (if String.eqb name "position" then _applyPosition else skip)) w.

(** The page writes an attribute of the element; the browser then calls
    [attributeChangedCallback] for the observed ones. *)
Definition setAttribute (name value : string) : act :=
  modify (set_attributes (fun m => <[name := value]> m)) ;;
  (if bool_decide (name ∈ observedAttributes)
   then attributeChangedCallback name else skip).

Definition _toggleMode : act :=
  on_elements (fun e =>
    let classes := ClassList.toggle "text-mode" (panel e) in
    let isText := ClassList.contains "text-mode" classes in
    set_modeSwitch (if isText then "Voice" else "Text")
      (set_panel (fun _ => classes) e)).

(** *** Asynchronous methods

    What an [async] method awaits is a [request] to the environment.
    The method is [Suspended] there, holding the object as it is at
    that point; it is resumed with the [reply] and with the object as
    it is at the time of the resumption.  A rejected promise and an
    exception thrown by the call itself both reach the enclosing
    [catch], so both are [Rejected]. *)

Inductive request :=
| GetUserMedia
| LoadScript (src : string)
| VapiStart (assistantId : option string)
| VapiConnectToAssistant (assistantId : option string)
| VapiStop
| VapiSendText (text : string).

Inductive reply :=
| Resolved
| Rejected (e : exn).

Inductive async :=
| Finished (o : outcome) (w : widget)
| Suspended (req : request) (w : widget) (resume : reply -> widget -> async).

Definition lift (a : act) (w : widget) : async :=
  let (o, w1) := a w in Finished o w1.

Definition state_of (a : async) : widget :=
  match a with
  | Finished _ w => w
  | Suspended _ w _ => w
  end.

(** Runs a method to the end when nothing else happens between its
    suspension points: each reply resumes it on the state it left. *)
Fixpoint settle (replies : list reply) (a : async) : async :=
  match replies with
  | [] => a
  | r :: rest =>
      match a with
      | Finished _ _ => a
      | Suspended _ w resume => settle rest (resume r w)
      end
  end.

(** **** [_toggleMic] *)

Definition mic_on : act :=
  modify (set_isListening true) ;;
  on_elements (set_mic (ClassList.add "on")) ;;
  _setStatus "Listening...".

Definition mic_blocked (err : exn) : act :=
  console_error "[NexusLumaAI] Mic permission denied or start failed:" ;;
  _setStatus "Mic blocked".

Definition mic_off : act :=
  modify (set_isListening false) ;;
  on_elements (set_mic (ClassList.remove "on")) ;;
  _setStatus "Idle".

Definition stop_failed (err : exn) : act :=
  console_error "[NexusLumaAI] stop() failed:".

(** After [await this._vapi.start(...)] or [connectToAssistant(...)]. *)
Definition after_start (r : reply) (w : widget) : async :=
  match r with
  | Resolved => lift (try_catch mic_on mic_blocked) w
  | Rejected e => lift (mic_blocked e) w
  end.

(** After [await navigator.mediaDevices.getUserMedia({ audio: true })]. *)
Definition after_getUserMedia (assistantId : option string)
    (r : reply) (w : widget) : async :=
  match r with
  | Rejected e => lift (mic_blocked e) w
  | Resolved =>
      match _vapi w with
      | None => lift (mic_blocked (TypeError "Cannot read properties of null")) w
      | Some c =>
          if vapi_start c then Suspended (VapiStart assistantId) w after_start
          else if vapi_connectToAssistant c
          then Suspended (VapiConnectToAssistant assistantId) w after_start
          else lift (try_catch
                 (console_warn
                    "[NexusLumaAI] No start/connectToAssistant API found on Vapi instance." ;;
                  mic_on)
                 mic_blocked) w
      end
  end.

(** After [await this._vapi.stop()]. *)
Definition after_stop (r : reply) (w : widget) : async :=
  match r with
  | Resolved => lift (try_catch mic_off stop_failed) w
  | Rejected e => lift (stop_failed e) w
  end.

Definition _toggleMic (assistantId : option string) (w : widget) : async :=
  match _vapi w with
  | None => Finished Normal w
  | Some c =>
      if negb (_isListening w)
      then Suspended GetUserMedia w (after_getUserMedia assistantId)
      else if vapi_stop c
      then Suspended VapiStop w after_stop
      else lift (try_catch mic_off stop_failed) w
  end.

(** **** [_sendText] *)

Definition sendText_failed (err : exn) : act :=
  console_error "[NexusLumaAI] sendText failed:".

(** After [await this._vapi.sendText(value)]. *)
Definition after_sendText (value : string) (r : reply) (w : widget) : async :=
  match r with
  | Resolved =>
      lift (try_catch
              (_appendMsg "user" value ;; on_elements (set_textInput ""))
              sendText_failed) w
  | Rejected e => lift (sendText_failed e) w
  end.

Definition _sendText (w : widget) : async :=
  match _elements w with
  | None => Finished (Thrown (TypeError "Cannot read properties of undefined")) w
  | Some e =>
      let value := Js.trim (textInput e) in
      if Js.is_empty value then Finished Normal w
      else
        match _vapi w with
        | Some c =>
            if vapi_sendText c
            then Suspended (VapiSendText value) w (after_sendText value)
            else lift (console_warn
                   "[NexusLumaAI] sendText API not available in this SDK version.") w
        | None => lift (console_warn
                   "[NexusLumaAI] sendText API not available in this SDK version.") w
        end
  end.

(** *** Start-up *)

(** [new NexusLumaAIWidget()], with the attributes written in the page
    and the global [window.Vapi] as it is then. *)
Definition constructor (attrs : gmap string string) (sdk : option Sdk) : widget :=
  {| _isOpen := false; _isConnected := false; _isListening := false;
     _elements := None; _vapi := None; _mounted := false;
     attributes := attrs; subscriptions := [];
     window_Vapi := sdk; console := [] |}.

(** The four notifications of the client the widget subscribes to. *)
Definition call_started : act :=
  _setStatus "Connected" ;; modify (set_isConnected true).

Definition call_ended : act :=
  _setStatus "Disconnected" ;;
  modify (set_isConnected false) ;;
  modify (set_isListening false) ;;
  on_elements (set_mic (ClassList.remove "on")).

(** [this._vapi.on(name, ...)]: returns and records the subscription, or throws. *)
Definition vapi_subscribe (accepts : string -> bool) (name : string) : act :=
  if accepts name
  then modify (set_subscriptions (fun l => (l ++ [name])%list))
  else throw (Failure "on").

(** The client emits [name]: the handler registered for it, if any, runs. *)
Definition vapi_emit (name : string) : act :=
  fun w =>
    if bool_decide (name ∈ subscriptions w)
    then
      (if String.eqb name "call.started" then call_started
       else if String.eqb name "call.ended" then call_ended
       else if String.eqb name "speech.started" then _pulse true
       else if String.eqb name "speech.ended" then _pulse false
       else skip) w
    else skip w.

(** The listeners of "Hook buttons", in the order they are added. *)
Definition hooks (assistantId : option string) : list listener :=
  [ {| on_target := Fab; on_type := "click"; on_run := HToggle |};
    {| on_target := Close; on_type := "click"; on_run := HClose |};
    {| on_target := Mic; on_type := "click"; on_run := HToggleMic assistantId |};
    {| on_target := ModeSwitch; on_type := "click"; on_run := HToggleMode |};
    {| on_target := Send; on_type := "click"; on_run := HSendText |};
    {| on_target := TextInput; on_type := "keydown"; on_run := HSendOnEnter |} ].

Definition _initVapiClient (publicKey assistantId : option string) : act :=
  fun w =>
    match window_Vapi w with
    | None => console_error "[NexusLumaAI] Vapi SDK unavailable on window." w
    | Some sdk =>
        try_catch
          (match construct sdk publicKey with
           | None => throw (Failure "Vapi constructor")
           | Some c =>
               modify (set_vapi (Some c)) ;;
               match vapi_on c with
               | Some accepts =>
                   vapi_subscribe accepts "call.started" ;;
                   vapi_subscribe accepts "call.ended" ;;
                   vapi_subscribe accepts "speech.started" ;;
                   vapi_subscribe accepts "speech.ended"
               | None => skip
               end ;;
               on_elements (set_listeners (fun ls => (ls ++ hooks assistantId)%list))
           end)
          (fun e =>
             console_error "[NexusLumaAI] Error creating Vapi client:" ;;
             _setStatus "Init error")
          w
    end.

(** The [catch] at the end of the promise chain of [connectedCallback]. *)
Definition load_failed (err : exn) : act :=
  console_error "[NexusLumaAI] Failed to load Vapi SDK:" ;;
  _setStatus "SDK load failed".

(** The [then] and [catch] of the chain; the script, once loaded, has
    defined [window.Vapi] or not in the state the chain resumes on. *)
Definition after_load (publicKey assistantId : option string)
    (r : reply) (w : widget) : async :=
  match r with
  | Resolved => lift (try_catch (_initVapiClient publicKey assistantId) load_failed) w
  | Rejected e => lift (load_failed e) w
  end.

(** [_ensureVapi]: returns at once when [window.Vapi] is there; otherwise
    injects the script and waits for it to load or to fail. *)
Definition _ensureVapi (w : widget) : async :=
  match window_Vapi w with
  | Some _ => Finished Normal w
  | None =>
      Suspended (LoadScript VAPI_CDN) w
        (fun r w1 =>
           match r with
           | Resolved => Finished Normal w1
           | Rejected e => Finished (Thrown e) w1
           end)
  end.

(** [connectedCallback].  The promise of [_ensureVapi] is created before
    the initial [open()]; its [then] and [catch] run after the callback
    has returned, at once when the promise is already settled and with
    the reply of the script otherwise. *)
Definition connectedCallback (w : widget) : async :=
  if _mounted w then Finished Normal w
  else
    let publicKey := getAttribute "public-key" w in
    let assistantId := getAttribute "assistant-id" w in
    match (modify (set_mounted true) ;;
           (if missing publicKey || missing assistantId
            then console_warn
              "[NexusLumaAI] Missing public-key and/or assistant-id attributes on <nxl-ai-widget>."
            else skip) ;;
           _render ;; _applyTheme ;; _applyPosition) w with
    | (Thrown e, w1) => Finished (Thrown e) w1
    | (Normal, w1) =>
        let promise := _ensureVapi w1 in
        let (o, w2) := (if open_requested w1 then open else skip) w1 in
        match promise with
        | Finished _ _ =>
            Finished o (state_of (after_load publicKey assistantId Resolved w2))
        | Suspended req _ _ =>
            Suspended req w2 (after_load publicKey assistantId)
        end
    end.

(** What becomes of the injected script: it fails to load, or it loads
    and defines [window.Vapi] (or, a wrong script, does not). *)
Inductive script :=
| ScriptFails (err : exn)
| ScriptLoads (defines : option Sdk).

Definition set_window_Vapi (sdk : option Sdk) (w : widget) : widget :=
  {| _isOpen := _isOpen w; _isConnected := _isConnected w; _isListening := _isListening w;
     _elements := _elements w; _vapi := _vapi w; _mounted := _mounted w;
     attributes := attributes w; subscriptions := subscriptions w;
     window_Vapi := sdk; console := console w |}.

(** The element is created and attached, and the script, when one was
    injected, settles before anything else happens. *)
Definition start (attrs : gmap string string) (present : option Sdk)
    (s : script) : widget :=
  match connectedCallback (constructor attrs present) with
  | Finished _ w => w
  | Suspended _ w resume =>
      match s with
      | ScriptFails err => state_of (resume (Rejected err) w)
      | ScriptLoads sdk => state_of (resume Resolved (set_window_Vapi sdk w))
      end
  end.

(** The same for an element the page already holds, on which it may have
    called methods before attaching it. *)
Definition attach (w : widget) (s : script) : widget :=
  match connectedCallback w with
  | Finished _ w1 => w1
  | Suspended _ w1 resume =>
      match s with
      | ScriptFails err => state_of (resume (Rejected err) w1)
      | ScriptLoads sdk => state_of (resume Resolved (set_window_Vapi sdk w1))
      end
  end.

(** *** Events on the elements *)

Record dom_event := {
  ev_target : target;
  ev_type : string;
  ev_key : option string
}.

Definition click (t : target) : dom_event :=
  {| ev_target := t; ev_type := "click"; ev_key := None |}.

Definition target_eqb (a b : target) : bool :=
  match a, b with
  | Fab, Fab | Close, Close | Mic, Mic | ModeSwitch, ModeSwitch
  | Send, Send | TextInput, TextInput => true
  | _, _ => false
  end.

Definition run_handler (h : handler) (ev : dom_event) (w : widget) : async :=
  match h with
  | HToggle => lift toggle w
  | HClose => lift close w
  | HToggleMic assistantId => _toggleMic assistantId w
  | HToggleMode => lift _toggleMode w
  | HSendText => _sendText w
  | HSendOnEnter =>
      match ev_key ev with
      | Some k => if String.eqb k "Enter" then _sendText w else Finished Normal w
      | None => Finished Normal w
      end
  end.

(** A suspended method waiting for its reply. *)
Definition pending : Type := request * (reply -> widget -> async).

(** The listeners matching the event run in order, each up to its first
    suspension; an error in one does not stop the next. *)
Fixpoint fire (ls : list listener) (ev : dom_event) (w : widget)
    : widget * list pending :=
  match ls with
  | [] => (w, [])
  | l :: rest =>
      if target_eqb (on_target l) (ev_target ev) && String.eqb (on_type l) (ev_type ev)
      then
        match run_handler (on_run l) ev w with
        | Finished _ w1 => fire rest ev w1
        | Suspended req w1 resume =>
            let (w2, ps) := fire rest ev w1 in (w2, (req, resume) :: ps)
        end
      else fire rest ev w
  end.

Definition dispatch (ev : dom_event) (w : widget) : widget * list pending :=
  match _elements w with
  | Some e => fire (listeners e) ev w
  | None => (w, [])
  end.

(** *** Sequences of calls to the public API *)

Inductive call := COpen | CClose | CToggle.

Definition perform (c : call) : act :=
  match c with
  | COpen => open
  | CClose => close
  | CToggle => toggle
  end.

(** The calls one after the other; a call that throws ends the run. *)
Fixpoint perform_all (cs : list call) : act :=
  match cs with
  | [] => skip
  | c :: rest => perform c ;; perform_all rest
  end.

(** The parity-reduced result of a call sequence, in the words of the
    specification: the last [open()] or [close()] fixes the flag (the
    initial value when there is none), and the flag is then flipped
    when the number of [toggle()] calls after it is odd. *)
Fixpoint last_absolute (init : bool) (cs : list call) : bool :=
  match cs with
  | [] => init
  | COpen :: rest => last_absolute true rest
  | CClose :: rest => last_absolute false rest
  | CToggle :: rest => last_absolute init rest
  end.

Fixpoint trailing_toggles (cs : list call) : nat :=
  match cs with
  | [] => 0
  | COpen :: rest | CClose :: rest => trailing_toggles rest
  | CToggle :: rest =>
      if forallb (fun c => match c with CToggle => true | _ => false end) rest
      then S (length rest) else trailing_toggles rest
  end.

Definition parity_reduced (init : bool) (cs : list call) : bool :=
  xorb (last_absolute init cs) (Nat.odd (trailing_toggles cs)).

(** A widget is mounted once [connectedCallback] ran: the flag is set
    and [_render] has filled [_elements]. *)
Definition mounted (w : widget) : Prop :=
  _mounted w = true /\ is_Some (_elements w).

(** The elements as [open()] and as [close()] leave them. *)
Definition opened (e : Elements) : Elements :=
  set_projection "1" (set_fab (ClassList.add "active") (set_panel (ClassList.add "open") e)).

Definition closed (e : Elements) : Elements :=
  set_projection "0" (set_fab (ClassList.remove "active") (set_panel (ClassList.remove "open") e)).

(** What one call of the public API does to the flag. *)
Definition flag_after (c : call) (b : bool) : bool :=
  match c with
  | COpen => true
  | CClose => false
  | CToggle => negb b
  end.

(** The user edits the text field of the composer. *)
Definition type_text (text : string) : act := on_elements (set_textInput text).

(** The ways into the Degraded state: the script fails to load, or the
    constructor of the client throws (with the SDK already on the page,
    or defined by the script). *)
Inductive degraded (attrs : gmap string string) : option Sdk -> script -> Prop :=
| load_fails (err : exn) :
    degraded attrs None (ScriptFails err)
| construction_fails (sdk : Sdk) (s : script) :
    construct sdk (attrs !! "public-key") = None ->
    degraded attrs (Some sdk) s
| construction_fails_once_loaded (sdk : Sdk) :
    construct sdk (attrs !! "public-key") = None ->
    degraded attrs None (ScriptLoads (Some sdk)).

(** The status text that reports the failure. *)
Definition failure_text (s : string) : bool :=
  String.eqb s "SDK load failed" || String.eqb s "Init error".

End Widget.

(** ** The iframe host: [NXL.mountIframeWidget] *)

Module Host.

(** The two windows a message is posted on. *)
Inductive window :=
| HostWindow     (* [window.postMessage] *)
| FrameWindow.   (* [iframe.contentWindow.postMessage] *)

Inductive node := FabButton | Frame | Other (tag : string).

(** The mount point: its children, and whether it is in the document
    (the frame has a content window only then). *)
Record container := {
  children : list node;
  connected : bool
}.

(** The part of the page the loader reads and writes. *)
Record page := {
  ids : gset string;
  head : list string;
  origin : string;
  console : list (string * option Js.value);
  posted : list (window * Js.value)
}.

(** The argument of [mountIframeWidget]; a field is [None] when the
    property is absent (or [null] for the mount point).  The mount point
    is an element, the credentials are strings of any code units, the
    position is any plain value and the address of the widget document a
    string. *)
Record Options := {
  mount : option container;
  publicKey : option Js.wide;
  assistantId : option Js.wide;
  position : option Js.value;
  widgetUrl : option string
}.

(** What the loader throws: its own [Error], or an error of the engine. *)
Inductive error :=
| Error (message : string)
| TypeError
| URIError.

(** What a mounted loader holds: the page, the mount point, the two
    elements it built and the variable [open] of its closure. *)
Record host := {
  doc : page;
  root : container;
  fab : gset string;
  fab_label : string;
  frame : gset string;
  frame_allow : string;
  frame_src : string;
  open : bool
}.

Definition set_doc (f : page -> page) (h : host) : host :=
  {| doc := f (doc h); root := root h; fab := fab h; fab_label := fab_label h;
     frame := frame h; frame_allow := frame_allow h; frame_src := frame_src h;
     open := open h |}.

Definition set_fab (f : gset string -> gset string) (h : host) : host :=
  {| doc := doc h; root := root h; fab := f (fab h); fab_label := fab_label h;
     frame := frame h; frame_allow := frame_allow h; frame_src := frame_src h;
     open := open h |}.

Definition set_frame (f : gset string -> gset string) (h : host) : host :=
  {| doc := doc h; root := root h; fab := fab h; fab_label := fab_label h;
     frame := f (frame h); frame_allow := frame_allow h; frame_src := frame_src h;
     open := open h |}.

Definition set_open (b : bool) (h : host) : host :=
  {| doc := doc h; root := root h; fab := fab h; fab_label := fab_label h;
     frame := frame h; frame_allow := frame_allow h; frame_src := frame_src h;
     open := b |}.

Definition warn (text : string) (arg : option Js.value) (p : page) : page :=
  {| ids := ids p; head := head p; origin := origin p;
     console := (console p ++ [(text, arg)])%list; posted := posted p |}.

Definition post (target : window) (message : Js.value) (p : page) : page :=
  {| ids := ids p; head := head p; origin := origin p; console := console p;
     posted := (posted p ++ [(target, message)])%list |}.

Definition ensureStyle (p : page) : page :=
  if bool_decide ("nxl-style" ∈ ids p) then p
  else {| ids := {[ "nxl-style" ]} ∪ ids p; head := (head p ++ ["nxl-style"])%list;
          origin := origin p; console := console p; posted := posted p |}.

(** [!v] for an optional string: absent or empty. *)
Definition missing (v : option Js.wide) : bool :=
  match v with
  | None => true
  | Some w => Js.no_units w
  end.

(** [opts.position] with the default of the destructuring pattern, which
    stands in for an absent or [undefined] property only. *)
Definition position_of (opts : option Options) : Js.value :=
  match opts ≫= position with
  | None | Some Js.VUndefined => Js.VStr "bottom-right"
  | Some v => v
  end.


(** [base + (position.includes('left') ? ' nxl-left' : '')] as a class list. *)
Definition placed (base position : string) : gset string :=
  if Js.includes "left" position then {[ base; "nxl-left" ]} else {[ base ]}.

Definition appendChild (n : node) (c : container) : container :=
  {| children := (children c ++ [n])%list; connected := connected c |}.

(** [mountIframeWidget(opts)] returns the loader, or throws and leaves
    the page as it is then.  After the guard on the mount point, the
    warning and the style, [position.includes] is a [TypeError] unless the
    position is a string, and [encodeURIComponent] is a [URIError] on a
    credential with an unpaired surrogate; both happen before anything is
    appended to the mount point.  The origin of the page is a string of
    code units below 256, which [encodeURIComponent] always accepts. *)
Definition mountIframeWidget (p : page) (opts : option Options)
    : error * page + host :=
  match opts ≫= mount with
  | None => inl (Error "NXL.mountIframeWidget: opts.mount is required", p)
  | Some target =>
      let publicKey := opts ≫= publicKey in
      let assistantId := opts ≫= assistantId in
      let p1 := if missing publicKey || missing assistantId
                then warn "[NXL] Missing Vapi keys." None p else p in
      let p2 := ensureStyle p1 in
      match position_of opts with
      | Js.VStr position =>
          let url := match opts ≫= widgetUrl with
                     | Some url => if Js.is_empty url then "nxl-iframe.html" else url
                     | None => "nxl-iframe.html"
                     end in
          match Js.encodeURIComponent publicKey, Js.encodeURIComponent assistantId with
          | Some key, Some assistant =>
              inr {| doc := p2;
                     root := appendChild Frame (appendChild FabButton target);
                     fab := placed "nxl-fab" position;
                     fab_label := "Open AI Assistant";
                     frame := placed "nxl-frame" position;
                     frame_allow := "microphone; autoplay";
                     frame_src :=
                       url +:+ "?publicKey=" +:+ key
                           +:+ "&assistantId=" +:+ assistant
                           +:+ "&host=" +:+ Js.encode_string (origin p2);
                     open := false |}
          | _, _ => inl (URIError, p2)
          end
      | _ => inl (TypeError, p2)
      end
  end.

(** The messages the host sends. *)
Definition host_message (type : string) : Js.value :=
  Js.object [("source", Js.VStr "NXL_HOST"); ("type", Js.VStr type)].

Definition sendText_message (text : string) : Js.value :=
  Js.object [("source", Js.VStr "NXL_HOST"); ("type", Js.VStr "sendText");
             ("payload", Js.VStr text)].

Definition toggle (h : host) : host :=
  let h1 := set_open (negb (open h)) h in
  let h2 := set_frame (ClassList.toggle_force "nxl-open" (open h1)) h1 in
  set_doc (post HostWindow (host_message (if open h2 then "open" else "close"))) h2.

(** The listener of the window's [message] events, applied to [e.data]. *)
Definition on_message (data : Js.value) (h : host) : host :=
  if negb (Js.truthy data) || negb (Js.is_string (Js.get data "source") "NXL_IFRAME")
  then h
  else
    let type := Js.get data "type" in
    let h1 :=
      if Js.is_string type "state"
      then set_fab (ClassList.toggle_force "nxl-pulse"
             (Js.truthy (Js.and_then (Js.get data "payload")
                           (fun payload => Js.get payload "listening")))) h
      else h in
    let h2 :=
      if Js.is_string type "error"
      then set_doc (warn "[NXL iframe] error:" (Some (Js.get data "payload"))) h1
      else h1 in
    if Js.is_string type "close" && open h2 then toggle h2 else h2.

(** The handle returned to the caller. *)
Definition handle_open (h : host) : host := if negb (open h) then toggle h else h.

Definition handle_close (h : host) : host := if open h then toggle h else h.

(** [String(t || '')] *)
Definition coerce (t : Js.loose) : option string :=
  Js.to_String (Js.or_empty t).

(** The frame has no content window while it is outside a document:
    reading [postMessage] from [null] throws, before the argument is
    looked at.  The conversion of the argument may throw as well. *)
Definition handle_sendText (t : Js.loose) (h : host) : error + host :=
  if connected (root h)
  then match coerce t with
       | Some text => inr (set_doc (post FrameWindow (sendText_message text)) h)
       | None => inl TypeError
       end
  else inl TypeError.

(** What can happen to a mounted loader. *)
Inductive event :=
| ClickFab
| Message (data : Js.value)
| CallOpen
| CallClose
| CallSendText (t : Js.loose).

(** One event; a call that throws leaves the loader as it was. *)
Definition step (ev : event) (h : host) : host :=
  match ev with
  | ClickFab => toggle h
  | Message data => on_message data h
  | CallOpen => handle_open h
  | CallClose => handle_close h
  | CallSendText t =>
      match handle_sendText t h with
      | inr h1 => h1
      | inl _ => h
      end
  end.

Definition run (evs : list event) (h : host) : host := fold_left (fun s ev => step ev s) evs h.

(** The [type] of a message the host posted. *)
Definition type_of (message : Js.value) : Js.value := Js.get message "type".

(** The test of the listener: there is data, and it carries the tag of
    the frame. *)
Definition from_peer (data : Js.value) : bool :=
  Js.truthy data && Js.is_string (Js.get data "source") "NXL_IFRAME".

(** Where each kind of message goes: [open] and [close] on the window
    of the host page, [sendText] on the content window of the frame. *)
Definition routed (entry : window * Js.value) : Prop :=
  match entry with
  | (HostWindow, m) => m = host_message "open" \/ m = host_message "close"
  | (FrameWindow, m) => exists text, m = sendText_message text
  end.

End Host.

(** ** Sample pages *)

Module Sample.

Import Widget.

Definition attrs : gmap string string :=
  {[ "public-key" := "pk"; "assistant-id" := "aid" ]}.

(** A client with every method. *)
Definition full_client : Client :=
  {| vapi_on := Some (fun _ => true); vapi_start := true;
     vapi_connectToAssistant := true; vapi_stop := true; vapi_sendText := true |}.

(** A client with neither [start] nor [connectToAssistant]. *)
Definition mute_client : Client :=
  {| vapi_on := None; vapi_start := false;
     vapi_connectToAssistant := false; vapi_stop := true; vapi_sendText := true |}.

Definition sdk_of (c : Client) : Sdk := {| construct := fun _ => Some c |}.

(** An SDK whose constructor throws. *)
Definition broken_sdk : Sdk := {| construct := fun _ => None |}.

(** The widget once the SDK, already on the page, gave a client. *)
Definition ready (c : Client) : widget :=
  start attrs (Some (sdk_of c)) (ScriptLoads None).

(** The same after a tap on the microphone, permission granted and
    the call started. *)
Definition listening : widget :=
  state_of (settle [Resolved; Resolved] (_toggleMic (Some "aid") (ready full_client))).

(** The widget after the SDK script failed to load. *)
Definition load_failure : widget :=
  start attrs None (ScriptFails (Failure ("Failed to load " +:+ VAPI_CDN))).

(** The widget after the constructor of the client threw. *)
Definition init_error : widget :=
  start attrs (Some broken_sdk) (ScriptLoads None).

(** The widget written with the [open] attribute, after the SDK script
    failed to load. *)
Definition open_load_failure : widget :=
  start (<["open" := "true"]> attrs) None
    (ScriptFails (Failure ("Failed to load " +:+ VAPI_CDN))).

(** The widget with text typed in the composer. *)
Definition typed (text : string) (w : widget) : widget :=
  snd (type_text text w).

Definition page : Host.page :=
  {| Host.ids := ∅; Host.head := []; Host.origin := "https://example.com";
     Host.console := []; Host.posted := [] |}.

Definition mount_point : Host.container :=
  {| Host.children := []; Host.connected := true |}.

Definition options : Host.Options :=
  {| Host.mount := Some mount_point; Host.publicKey := Some (Js.widen "pk");
     Host.assistantId := Some (Js.widen "aid"); Host.position := None;
     Host.widgetUrl := None |}.




(** The loader as [mountIframeWidget(options)] leaves it. *)
Definition mounted_host : Host.host :=
  match Host.mountIframeWidget page (Some options) with
  | inr h => h
  | inl _ =>
      {| Host.doc := page; Host.root := mount_point; Host.fab := ∅;
         Host.fab_label := ""; Host.frame := ∅; Host.frame_allow := "";
         Host.frame_src := ""; Host.open := false |}
  end.

End Sample.

(** ** The widget in its page: inputs and pending requests *)

Module Session.

Import Widget.

(** The element and the suspended methods waiting for a reply. *)
Record world := {
  element : widget;
  waiting : list pending
}.

(** What the page, the user, the client and the environment can do. *)
Inductive input :=
| Click (t : target)
| Key (key : string)
| Edit (text : string)
| Emit (name : string)
| Call (c : call)
| SetAttribute (name value : string)
| Attach
| Define (sdk : option Sdk)
| Settle (i : nat) (r : reply).

Definition keydown (key : string) : dom_event :=
  {| ev_target := TextInput; ev_type := "keydown"; ev_key := Some key |}.

(** A method ran up to its end or to its next suspension. *)
Definition absorb (a : async) (others : list pending) : world :=
  match a with
  | Finished _ w => {| element := w; waiting := others |}
  | Suspended req w resume => {| element := w; waiting := (others ++ [(req, resume)])%list |}
  end.

Definition deliver (ev : dom_event) (s : world) : world :=
  let (w, started) := dispatch ev (element s) in
  {| element := w; waiting := (waiting s ++ started)%list |}.

Definition apply (a : act) (s : world) : world :=
  {| element := snd (a (element s)); waiting := waiting s |}.

(** One input.  [Settle i r] gives its reply to the [i]-th waiting
    method, which resumes on the element as it is now. *)
Definition step (i : input) (s : world) : world :=
  match i with
  | Click t => deliver (click t) s
  | Key key => deliver (keydown key) s
  | Edit text => apply (type_text text) s
  | Emit name => apply (vapi_emit name) s
  | Call c => apply (perform c) s
  | SetAttribute name value => apply (setAttribute name value) s
  | Attach => absorb (connectedCallback (element s)) (waiting s)
  | Define sdk =>
      {| element := set_window_Vapi sdk (element s); waiting := waiting s |}
  | Settle i r =>
      match waiting s !! i with
      | Some (_, resume) => absorb (resume r (element s)) (delete i (waiting s))
      | None => s
      end
  end.

Definition run (inputs : list input) (s : world) : world :=
  fold_left (fun s i => step i s) inputs s.

(** The element is created with its attributes and attached. *)
Definition boot (attrs : gmap string string) (present : option Sdk) : world :=
  absorb (connectedCallback (constructor attrs present)) [].

(** The element as the page holds it before attaching it. *)
Definition created (attrs : gmap string string) (present : option Sdk) : world :=
  {| element := constructor attrs present; waiting := [] |}.

(** The inputs other than the attachment and the calls [open()] and
    [toggle()]: on a detached element these two set [_isOpen] before they
    throw. *)
Definition shut (i : input) : bool :=
  match i with
  | Attach | Call COpen | Call CToggle => false
  | _ => true
  end.

(** *** What holds of every world reached from [boot] *)

Definition user_entry (m : string * string) : Prop := fst m = "msg user".

(** No listener, or the six of "Hook buttons" once, with a client. *)
Definition wired (assistantId : option string) (e : Elements) (v : option Client) : Prop :=
  listeners e = [] \/ (is_Some v /\ listeners e = hooks assistantId).

Definition coherent (assistantId : option string) (w : widget) : Prop :=
  _mounted w = true /\
  (_isListening w = true -> is_Some (_vapi w)) /\
  exists e,
    _elements w = Some e /\
    ClassList.contains "open" (panel e) = _isOpen w /\
    ClassList.contains "active" (fab e) = _isOpen w /\
    ClassList.contains "on" (mic e) = _isListening w /\
    Forall user_entry (chat e) /\
    wired assistantId e (_vapi w).

(** The suspended calls of the talk toggle and of the composer. *)
Inductive client_call : pending -> Prop :=
| call_getUserMedia (assistantId : option string) :
    client_call (GetUserMedia, after_getUserMedia assistantId)
| call_start (assistantId : option string) :
    client_call (VapiStart assistantId, after_start)
| call_connectToAssistant (assistantId : option string) :
    client_call (VapiConnectToAssistant assistantId, after_start)
| call_stop :
    client_call (VapiStop, after_stop)
| call_sendText (value : string) :
    client_call (VapiSendText value, after_sendText value).

(** Before there is a client, the only thing waited for is the script. *)
Definition sound (publicKey assistantId : option string) (s : world) : Prop :=
  coherent assistantId (element s) /\
  match _vapi (element s) with
  | None =>
      waiting s = [] \/
      waiting s = [(LoadScript VAPI_CDN, after_load publicKey assistantId)]
  | Some _ => Forall client_call (waiting s)
  end.

(** From a state of the element to a later one: the element is still
    coherent, the client handle is the same, the transcript has only
    grown and the listeners are the same. *)
Definition kept (assistantId : option string) (w w' : widget) : Prop :=
  coherent assistantId w' /\
  _vapi w' = _vapi w /\
  forall e, _elements w = Some e ->
    exists e', _elements w' = Some e' /\
      chat e `prefix_of` chat e' /\ listeners e' = listeners e.

(** A statement that keeps every coherent element so. *)
Definition gentle (assistantId : option string) (a : act) : Prop :=
  forall w, coherent assistantId w -> kept assistantId w (snd (a w)).

(** What a method that ran on [w] left: the element kept as above, and,
    when it is suspended, one of the calls made to the client. *)
Definition settled (assistantId : option string) (w : widget) (a : async) : Prop :=
  match a with
  | Finished _ w' => kept assistantId w w'
  | Suspended req w' resume => kept assistantId w w' /\ client_call (req, resume)
  end.

Definition pending_of (a : async) : list pending :=
  match a with
  | Finished _ _ => []
  | Suspended req _ resume => [(req, resume)]
  end.

(** From one world to the next: the client handle, once there, stays the
    same; the transcript only grows; the listeners, once there, stay. *)
Definition later (w w' : widget) : Prop :=
  (forall c, _vapi w = Some c -> _vapi w' = Some c) /\
  forall e, _elements w = Some e ->
    exists e', _elements w' = Some e' /\
      chat e `prefix_of` chat e' /\
      (listeners e <> [] -> listeners e' = listeners e).

End Session.

(** ** The wire between the host page and the frame *)

Module Wire.

Import Host.

Definition same_window (a b : window) : bool :=
  match a, b with
  | HostWindow, HostWindow | FrameWindow, FrameWindow => true
  | _, _ => false
  end.

(** The messages posted on one window, oldest first. *)
Definition posted_on (target : window) (l : list (window * Js.value)) : list Js.value :=
  map snd (List.filter (fun entry => same_window target (fst entry)) l).

(** [n] broadcasts of a loader whose flag is [opened] before the first:
    each one announces the flag just flipped. *)
Fixpoint alternate (opened : bool) (n : nat) : list Js.value :=
  match n with
  | 0 => []
  | S n' => host_message (if opened then "close" else "open") :: alternate (negb opened) n'
  end.

(** A message as the frame sends it. *)
Definition peer_message (type : string) (payload : Js.value) : Js.value :=
  Js.object [("source", Js.VStr "NXL_IFRAME"); ("type", Js.VStr type);
             ("payload", payload)].

(** [data.payload && data.payload.listening], as a boolean. *)
Definition listening_of (data : Js.value) : bool :=
  Js.truthy (Js.and_then (Js.get data "payload") (fun payload => Js.get payload "listening")).

(** The characters [encodeURIComponent] can produce: the unreserved ones
    and the percent sign of an escape. *)
Definition url_safe (c : ascii) : bool :=
  Js.is_unreserved c || Ascii.eqb c "%".

Fixpoint all_chars (p : ascii -> bool) (s : string) : bool :=
  match s with
  | EmptyString => true
  | String c s' => p c && all_chars p s'
  end.

(** The address of the frame is decided by the options and the origin. *)
Definition widget_document (opts : option Options) : string :=
  match opts ≫= widgetUrl with
  | Some url => if Js.is_empty url then "nxl-iframe.html" else url
  | None => "nxl-iframe.html"
  end.

(** The class of the frame says what the flag says. *)
Definition styled (h : host) : Prop :=
  ClassList.contains "nxl-open" (frame h) = open h.

(** What no event touches once the loader is mounted: the mount point,
    the attributes of the two elements, the style and the origin. *)
Definition anchored (h h' : host) : Prop :=
  root h' = root h /\ frame_src h' = frame_src h /\ frame_allow h' = frame_allow h /\
  fab_label h' = fab_label h /\ ids (doc h') = ids (doc h) /\
  head (doc h') = head (doc h) /\ origin (doc h') = origin (doc h).

End Wire.

(** ** Properties of the embedded widget *)

Section WidgetFacts.

Import Widget.
Local Open Scope act_scope.

(** Reads of a field through the setters, and nothing else. *)
Ltac fields :=
  cbn [_isOpen _isConnected _isListening _elements _vapi _mounted attributes
       subscriptions window_Vapi console
       set_isOpen set_isConnected set_isListening set_elements set_vapi
       set_mounted set_attributes set_subscriptions set_console set_window_Vapi
       fab panel mic projection status modeSwitch chat textInput listeners
       set_fab set_panel set_mic set_projection set_status set_modeSwitch
       set_chat set_textInput set_listeners opened closed fst snd] in *.

(** The statements, unfolded down to the reads and writes. *)
Ltac statements :=
  unfold open, close, mic_on, mic_off, mic_blocked, stop_failed, sendText_failed,
    load_failed, _appendMsg, _setStatus, _flashProjectionLine, _render,
    console_warn, console_error, try_catch, seq, modify, on_elements, skip,
    throw, lift in *.

Lemma contains_add (name : string) (cl : gset string) :
  ClassList.contains name (ClassList.add name cl) = true.
Proof.
  unfold ClassList.contains, ClassList.add. apply bool_decide_eq_true.
  apply elem_of_union_l, elem_of_singleton. reflexivity.
Qed.

Lemma contains_remove (name : string) (cl : gset string) :
  ClassList.contains name (ClassList.remove name cl) = false.
Proof.
  unfold ClassList.contains, ClassList.remove. apply bool_decide_eq_false.
  rewrite elem_of_difference, elem_of_singleton. tauto.
Qed.

Lemma add_add (name : string) (cl : gset string) :
  ClassList.add name (ClassList.add name cl) = ClassList.add name cl.
Proof. unfold ClassList.add. now rewrite (assoc_L (∪)), (idemp_L (∪)). Qed.

Lemma remove_remove (name : string) (cl : gset string) :
  ClassList.remove name (ClassList.remove name cl) = ClassList.remove name cl.
Proof.
  unfold ClassList.remove. apply set_eq. intros x.
  rewrite !elem_of_difference. tauto.
Qed.

Lemma open_rendered (w : widget) (e : Elements) :
  _elements w = Some e ->
  open w = (Normal, set_elements (Some (opened e)) (set_isOpen true w)).
Proof. intros He. statements. fields. rewrite He. reflexivity. Qed.

Lemma close_rendered (w : widget) (e : Elements) :
  _elements w = Some e ->
  close w = (Normal, set_elements (Some (closed e)) (set_isOpen false w)).
Proof. intros He. statements. fields. rewrite He. reflexivity. Qed.

Lemma perform_mounted (c : call) (w : widget) :
  mounted w ->
  exists w1 e1, perform c w = (Normal, w1) /\ mounted w1 /\
    _elements w1 = Some e1 /\
    _isOpen w1 = flag_after c (_isOpen w) /\
    ClassList.contains "open" (panel e1) = _isOpen w1.
Proof.
  intros [Hm [e He]].
  assert (Hopen : exists w1 e1, open w = (Normal, w1) /\ mounted w1 /\
            _elements w1 = Some e1 /\ _isOpen w1 = true /\
            ClassList.contains "open" (panel e1) = _isOpen w1).
  { eexists _, _. split; [apply (open_rendered _ _ He)|]. unfold mounted. fields.
    split; [split; [exact Hm | eexists; reflexivity]|].
    split; [reflexivity|]. split; [reflexivity|]. apply contains_add. }
  assert (Hclose : exists w1 e1, close w = (Normal, w1) /\ mounted w1 /\
            _elements w1 = Some e1 /\ _isOpen w1 = false /\
            ClassList.contains "open" (panel e1) = _isOpen w1).
  { eexists _, _. split; [apply (close_rendered _ _ He)|]. unfold mounted. fields.
    split; [split; [exact Hm | eexists; reflexivity]|].
    split; [reflexivity|]. split; [reflexivity|]. apply contains_remove. }
  destruct c; cbn [perform flag_after]; trivial.
  unfold toggle. destruct (_isOpen w); cbn [negb]; trivial.
Qed.

Lemma last_absolute_toggles (b : bool) (cs : list call) :
  forallb (fun c => match c with CToggle => true | _ => false end) cs = true ->
  last_absolute b cs = b /\ trailing_toggles cs = length cs.
Proof.
  induction cs as [|c cs IH]; [easy|].
  destruct c; cbn; try discriminate. intros H. rewrite H.
  destruct (IH H) as [-> _]. easy.
Qed.

Lemma last_absolute_fixed (a b : bool) (cs : list call) :
  forallb (fun c => match c with CToggle => true | _ => false end) cs = false ->
  last_absolute a cs = last_absolute b cs.
Proof.
  induction cs as [|c cs IH]; [discriminate|].
  destruct c; cbn; auto.
Qed.

(** The parity-reduced result is the flag threaded through the calls. *)
Lemma parity_reduced_cons (b : bool) (c : call) (cs : list call) :
  parity_reduced b (c :: cs) = parity_reduced (flag_after c b) cs.
Proof.
  unfold parity_reduced. destruct c; cbn [last_absolute trailing_toggles flag_after]; trivial.
  destruct (forallb _ cs) eqn:Hall.
  - destruct (last_absolute_toggles b cs Hall) as [-> ->].
    destruct (last_absolute_toggles (negb b) cs Hall) as [-> _].
    rewrite Nat.odd_succ, <- Nat.negb_odd.
    destruct b, (Nat.odd (length cs)); reflexivity.
  - now rewrite (last_absolute_fixed b (negb b) cs Hall).
Qed.

Lemma perform_all_mounted (cs : list call) (w : widget) :
  mounted w ->
  exists w1, perform_all cs w = (Normal, w1) /\ mounted w1 /\
    _isOpen w1 = parity_reduced (_isOpen w) cs /\
    (cs <> [] -> forall e1, _elements w1 = Some e1 ->
       ClassList.contains "open" (panel e1) = _isOpen w1).
Proof.
  revert w. induction cs as [|c cs IH]; intros w Hw.
  - exists w. cbn. unfold parity_reduced. cbn. rewrite xorb_false_r. easy.
  - destruct (perform_mounted c w Hw) as (w1 & e1 & Hc & Hw1 & He1 & Hflag & Hvis).
    destruct (IH w1 Hw1) as (w2 & Hrest & Hw2 & Hparity & Hvis2).
    exists w2. cbn [perform_all]. unfold seq at 1. rewrite Hc.
    split; [exact Hrest|]. split; [exact Hw2|].
    split; [now rewrite parity_reduced_cons, <- Hflag|].
    intros _ e2 He2. destruct cs as [|c' cs'].
    + cbn in Hrest. injection Hrest as <-. rewrite He1 in He2.
      now injection He2 as <-.
    + now apply Hvis2.
Qed.

Lemma open_twice (w : widget) : mounted w -> (open ;; open) w = open w.
Proof.
  intros [_ [e He]]. unfold seq at 1. rewrite (open_rendered w e He).
  rewrite (open_rendered _ (opened e)) by reflexivity.
  unfold opened, set_isOpen, set_elements, set_projection, set_fab, set_panel.
  fields. now rewrite !add_add.
Qed.

Lemma close_twice (w : widget) : mounted w -> (close ;; close) w = close w.
Proof.
  intros [_ [e He]]. unfold seq at 1. rewrite (close_rendered w e He).
  rewrite (close_rendered _ (closed e)) by reflexivity.
  unfold closed, set_isOpen, set_elements, set_projection, set_fab, set_panel.
  fields. now rewrite !remove_remove.
Qed.

(** Attaching a freshly constructed element: the synchronous part
    renders the tree with no listener on it, and the promise chain
    either runs at once or waits for the script. *)
Lemma connectedCallback_fresh (attrs : gmap string string) (present : option Sdk) :
  exists w2 e2,
    connectedCallback (constructor attrs present) =
      match present with
      | Some _ =>
          Finished Normal
            (state_of (after_load (attrs !! "public-key") (attrs !! "assistant-id")
                         Resolved w2))
      | None =>
          Suspended (LoadScript VAPI_CDN) w2
            (after_load (attrs !! "public-key") (attrs !! "assistant-id"))
      end /\
    _elements w2 = Some e2 /\ listeners e2 = [] /\ chat e2 = [] /\
    status e2 = "Idle" /\
    _mounted w2 = true /\ _vapi w2 = None /\ window_Vapi w2 = present /\
    _isListening w2 = false.
Proof.
  unfold connectedCallback, _ensureVapi, constructor, getAttribute. fields.
  destruct (missing (attrs !! "public-key") || missing (attrs !! "assistant-id"));
  unfold _applyTheme, _applyPosition; statements; fields.
  all: match goal with |- context [open_requested ?w] => destruct (open_requested w) end.
  all: fields; destruct present; eexists _, _; (split; [reflexivity|]); fields.
  all: repeat (split; [reflexivity|]); reflexivity.
Qed.

(** The Degraded state: rendered, no listener on any element, no client
    handle, and a status text that reports the failure. *)
Lemma degraded_state (attrs : gmap string string) (present : option Sdk) (s : script) :
  degraded attrs present s ->
  exists e,
    _elements (start attrs present s) = Some e /\ listeners e = [] /\ chat e = [] /\
    failure_text (status e) = true /\
    _mounted (start attrs present s) = true /\ _vapi (start attrs present s) = None.
Proof.
  intros Hd.
  destruct (connectedCallback_fresh attrs present)
    as (w2 & e2 & Heq & He2 & Hls & Hchat & _ & Hm & Hv & Hsdk & _).
  unfold start. rewrite Heq.
  destruct Hd as [err | sdk s Hc | sdk Hc].
  - cbn [after_load state_of]. statements. fields. rewrite He2. cbn [state_of]. fields.
    exists (set_status "SDK load failed" e2). fields. easy.
  - cbn [after_load state_of]. unfold _initVapiClient. statements.
    rewrite Hsdk, Hc. fields. rewrite He2. cbn [state_of]. fields.
    exists (set_status "Init error" e2). fields. easy.
  - cbn [after_load state_of]. unfold _initVapiClient. statements. fields.
    rewrite Hc. fields. rewrite He2. cbn [state_of]. fields.
    exists (set_status "Init error" e2). fields. easy.
Qed.

(** The promise chain of [connectedCallback] keeps the widget mounted. *)
Lemma init_mounted (publicKey assistantId : option string) (w : widget) :
  mounted w ->
  mounted (snd (try_catch (_initVapiClient publicKey assistantId) load_failed w)).
Proof.
  intros [Hm [e He]]. unfold try_catch, _initVapiClient. cbn beta.
  destruct (window_Vapi w) as [sdk|];
    [|statements; fields; split; [exact Hm | now exists e]].
  destruct (construct sdk publicKey) as [c|]; [destruct (vapi_on c) as [accepts|]|].
  - unfold vapi_subscribe.
    destruct (accepts "call.started"), (accepts "call.ended"),
      (accepts "speech.started"), (accepts "speech.ended");
      statements; fields; rewrite He; fields;
      (split; [exact Hm | eexists; reflexivity]).
  - statements; fields; rewrite He; fields; split; [exact Hm | eexists; reflexivity].
  - statements; fields; rewrite He; fields; split; [exact Hm | eexists; reflexivity].
Qed.

Lemma load_failed_mounted (err : exn) (w : widget) :
  mounted w -> mounted (snd (load_failed err w)).
Proof.
  intros [Hm [e He]]. unfold mounted. statements. fields. rewrite He. fields.
  split; [exact Hm | eexists; reflexivity].
Qed.

(** Attaching a freshly constructed element mounts it, whatever the
    attributes, the SDK and the fate of the script. *)
Lemma start_mounted (attrs : gmap string string) (present : option Sdk) (s : script) :
  mounted (start attrs present s).
Proof.
  destruct (connectedCallback_fresh attrs present)
    as (w2 & e2 & Heq & He2 & _ & _ & _ & Hm & _).
  assert (Hw2 : mounted w2) by (split; [exact Hm | now exists e2]).
  unfold start. rewrite Heq. destruct present as [sdk|].
  - cbn [after_load]. unfold lift.
    pose proof (init_mounted (attrs !! "public-key") (attrs !! "assistant-id") w2 Hw2) as H.
    destruct (try_catch _ _ _). exact H.
  - destruct s as [err | sdk]; cbn [after_load].
    + unfold lift. pose proof (load_failed_mounted err w2 Hw2) as H.
      destruct (load_failed err w2). exact H.
    + unfold lift.
      pose proof (init_mounted (attrs !! "public-key") (attrs !! "assistant-id")
                    (set_window_Vapi sdk w2)) as H.
      destruct (try_catch _ _ _). apply H.
      destruct Hw2 as [? [e ?]]. split; [assumption | now exists e].
Qed.

(** *** The public API *)

(** C5.  On a mounted widget every sequence of [open()], [close()] and
    [toggle()] calls returns normally and leaves [_isOpen] equal to the
    parity-reduced result of the sequence, starting from the flag the
    widget had (closed, initially); the [open] class of the panel
    follows the flag.  [open()] twice is [open()] once, and likewise
    for [close()]. *)
Theorem api_calls_parity_reduced (w : widget) (cs : list call) :
  mounted w ->
  (exists w1,
      perform_all cs w = (Normal, w1) /\ mounted w1 /\
      _isOpen w1 = parity_reduced (_isOpen w) cs /\
      (cs <> [] -> forall e1, _elements w1 = Some e1 ->
         ClassList.contains "open" (panel e1) = _isOpen w1)) /\
  (open ;; open) w = open w /\
  (close ;; close) w = close w.
Proof.
  intros Hw. split; [now apply perform_all_mounted|].
  split; [now apply open_twice | now apply close_twice].
Qed.

Lemma ready_mounted (c : Client) : mounted (Sample.ready c).
Proof. apply start_mounted. Qed.

Lemma api_calls_parity_reduced_witness :
  _isOpen (Sample.ready Sample.full_client) = false /\
  exists w1,
    perform_all [CToggle; COpen; COpen; CToggle; CToggle]
      (Sample.ready Sample.full_client) = (Normal, w1) /\
    _isOpen w1 = true.
Proof.
  split; [vm_compute; reflexivity|].
  destruct (api_calls_parity_reduced (Sample.ready Sample.full_client)
              [CToggle; COpen; COpen; CToggle; CToggle]
              (ready_mounted Sample.full_client))
    as [(w1 & Hrun & _ & Hflag & _) _].
  exists w1. split; [exact Hrun|]. rewrite Hflag. vm_compute. reflexivity.
Defined.

(** *** The talk toggle *)

(** C1, as stated, fails: with the widget listening and a client whose
    [stop()] throws, the toggle ends with [_isListening] still [true]. *)
Lemma stop_rejected_stays_listening :
  _isListening Sample.listening = true /\
  (exists c, _vapi Sample.listening = Some c /\ vapi_stop c = true) /\
  exists w1,
    settle [Rejected (Failure "stop")] (_toggleMic (Some "aid") Sample.listening)
      = Finished Normal w1 /\
    _isListening w1 = true.
Proof.
  split; [vm_compute; reflexivity|].
  split; [eexists; split; vm_compute; reflexivity|].
  eexists. split; vm_compute; reflexivity.
Qed.

(** C1, amended.  With the widget listening, the toggle invokes the
    client's [stop] when the client has one.  When [stop] is absent, or
    when the invocation succeeds, [_isListening] becomes [false], the
    microphone loses its [on] class and the status reads "Idle".  When
    the invocation throws, the failure is logged and nothing else
    changes: [_isListening] stays as it was. *)
Theorem toggleMic_while_listening (w : widget) (e : Elements) (c : Client)
    (assistantId : option string) :
  _elements w = Some e -> _vapi w = Some c -> _isListening w = true ->
  if vapi_stop c
  then
    exists resume,
      _toggleMic assistantId w = Suspended VapiStop w resume /\
      (forall w1 e1, _elements w1 = Some e1 ->
         exists w2 e2,
           resume Resolved w1 = Finished Normal w2 /\ _isListening w2 = false /\
           _elements w2 = Some e2 /\ status e2 = "Idle" /\
           ClassList.contains "on" (mic e2) = false) /\
      (forall w1 err,
         resume (Rejected err) w1 =
           Finished Normal
             (set_console (fun l => (l ++ [(LError, "[NexusLumaAI] stop() failed:")])%list) w1))
  else
    exists w2 e2,
      _toggleMic assistantId w = Finished Normal w2 /\ _isListening w2 = false /\
      _elements w2 = Some e2 /\ status e2 = "Idle" /\
      ClassList.contains "on" (mic e2) = false.
Proof.
  intros He Hc Hl. unfold _toggleMic. rewrite Hc, Hl. cbn [negb].
  destruct (vapi_stop c).
  - eexists. split; [reflexivity|]. split.
    + intros w1 e1 He1. cbn [after_stop]. statements. fields. rewrite He1. fields.
      eexists _, _. split; [reflexivity|]. fields.
      repeat (split; [reflexivity|]). apply contains_remove.
    + intros w1 err. reflexivity.
  - statements. fields. rewrite He. fields.
    eexists _, _. split; [reflexivity|]. fields.
    repeat (split; [reflexivity|]). apply contains_remove.
Qed.

Lemma toggleMic_while_listening_witness :
  exists resume,
    _toggleMic (Some "aid") Sample.listening =
      Suspended VapiStop Sample.listening resume /\
    (exists w2, resume Resolved Sample.listening = Finished Normal w2 /\
                _isListening w2 = false) /\
    (exists w2, resume (Rejected (Failure "stop")) Sample.listening = Finished Normal w2 /\
                _isListening w2 = true).
Proof.
  assert (He : exists e, _elements Sample.listening = Some e)
    by (eexists; vm_compute; reflexivity).
  destruct He as [e He].
  assert (Hc : _vapi Sample.listening = Some Sample.full_client)
    by (vm_compute; reflexivity).
  assert (Hl : _isListening Sample.listening = true) by (vm_compute; reflexivity).
  pose proof (toggleMic_while_listening Sample.listening e Sample.full_client
                (Some "aid") He Hc Hl) as H.
  cbn [vapi_stop Sample.full_client] in H.
  destruct H as (resume & Hrun & Hok & Hfail).
  exists resume. split; [exact Hrun|]. split.
  - destruct (Hok Sample.listening e He) as (w2 & e2 & H2 & Hl2 & _).
    exists w2. split; assumption.
  - eexists. split; [apply Hfail|]. vm_compute. reflexivity.
Defined.

(** C2, at the failing input: the widget is ready and not listening, the
    client has neither [start] nor [connectToAssistant], and the
    microphone permission is granted.  The warning is logged, and the
    widget then marks itself as listening all the same. *)
Lemma no_start_api_marks_listening :
  _isListening (Sample.ready Sample.mute_client) = false /\
  exists w1 e1,
    settle [Resolved] (_toggleMic (Some "aid") (Sample.ready Sample.mute_client))
      = Finished Normal w1 /\
    console w1 =
      [(LWarn, "[NexusLumaAI] No start/connectToAssistant API found on Vapi instance.")] /\
    _isListening w1 = true /\
    _elements w1 = Some e1 /\ status e1 = "Listening..." /\
    ClassList.contains "on" (mic e1) = true.
Proof.
  split; [vm_compute; reflexivity|]. eexists _, _.
  split; [vm_compute; reflexivity|].
  split; [vm_compute; reflexivity|]. split; [vm_compute; reflexivity|].
  split; [vm_compute; reflexivity|]. split; [vm_compute; reflexivity|].
  vm_compute. reflexivity.
Qed.

(** *** The Degraded state *)

(** C3, at the failing inputs.  The SDK script fails to load, or the
    constructor of the client throws: the status reports the failure,
    but the listeners of "Hook buttons" are added only after the client
    was constructed, so no control has one.  A click on the fab leaves
    the panel closed, where the failure text is.  On a widget written
    with the [open] attribute the panel is shown, and a click on the
    close button leaves it shown: the event reaches no handler. *)
Lemma degraded_fab_click_ignored :
  degraded Sample.attrs None (ScriptFails (Failure ("Failed to load " +:+ VAPI_CDN))) /\
  option_map status (_elements Sample.load_failure) = Some "SDK load failed" /\
  option_map listeners (_elements Sample.load_failure) = Some [] /\
  _isOpen Sample.load_failure = false /\
  dispatch (click Fab) Sample.load_failure = (Sample.load_failure, []) /\
  _isOpen (fst (dispatch (click Close) (snd (open Sample.load_failure)))) = true /\
  degraded (<["open" := "true"]> Sample.attrs) None
    (ScriptFails (Failure ("Failed to load " +:+ VAPI_CDN))) /\
  _isOpen Sample.open_load_failure = true /\
  option_map (fun e => ClassList.contains "open" (panel e))
    (_elements Sample.open_load_failure) = Some true /\
  dispatch (click Close) Sample.open_load_failure = (Sample.open_load_failure, []) /\
  degraded Sample.attrs (Some Sample.broken_sdk) (ScriptLoads None) /\
  option_map status (_elements Sample.init_error) = Some "Init error" /\
  _isOpen Sample.init_error = false /\
  dispatch (click Fab) Sample.init_error = (Sample.init_error, []).
Proof.
  split; [constructor|]. split; [vm_compute; reflexivity|].
  split; [vm_compute; reflexivity|]. split; [vm_compute; reflexivity|].
  split; [vm_compute; reflexivity|]. split; [vm_compute; reflexivity|].
  split; [constructor|]. split; [vm_compute; reflexivity|].
  split; [vm_compute; reflexivity|]. split; [vm_compute; reflexivity|].
  split; [now constructor|]. split; [vm_compute; reflexivity|].
  split; vm_compute; reflexivity.
Qed.

(** The Degraded state on every input, as the code has it: the status
    text reports the failure and no handler is attached to any control,
    so that no event on the fab, the close button, the microphone, the
    send button or the text field changes or starts anything; the talk
    toggle and the text send, called directly, neither reach the client
    nor add to the transcript; the methods [open()], [close()] and
    [toggle()] alone still move the panel. *)
Lemma degraded_inert (attrs : gmap string string) (present : option Sdk)
    (s : script) :
  degraded attrs present s ->
  let d := start attrs present s in
  (exists e, _elements d = Some e /\ failure_text (status e) = true) /\
  (forall ev, dispatch ev d = (d, [])) /\
  (forall assistantId, _toggleMic assistantId d = Finished Normal d) /\
  (forall text,
      exists w1, _sendText (snd (type_text text d)) = Finished Normal w1 /\
                 option_map chat (_elements w1) = Some []) /\
  (forall c, exists d1,
      perform c d = (Normal, d1) /\ _isOpen d1 = flag_after c (_isOpen d)).
Proof.
  intros Hd d.
  destruct (degraded_state attrs present s Hd) as (e & He & Hls & Hchat & Hst & Hm & Hv).
  fold d in He, Hm, Hv.
  split; [exists e; split; assumption|].
  split; [intros ev; unfold dispatch; rewrite He, Hls; reflexivity|].
  split; [intros aid; unfold _toggleMic; rewrite Hv; reflexivity|].
  split.
  - intros text. unfold type_text, _sendText. statements. rewrite He. fields. rewrite Hv.
    destruct (Js.is_empty (Js.trim text)); eexists; (split; [reflexivity|]);
      fields; cbn [option_map]; fields; now rewrite Hchat.
  - intros c. destruct (perform_mounted c d) as (d1 & e1 & Hp & _ & _ & Hflag & _).
    + split; [exact Hm | now exists e].
    + exists d1. split; assumption.
Qed.

(** *** The text composer *)

Lemma trim_start_all_white (s : string) :
  Js.all_white s = true -> Js.trim_start s = "".
Proof.
  induction s as [|c s IH]; cbn [Js.all_white Js.trim_start]; [reflexivity|].
  intros [Hc Hs]%andb_true_iff. rewrite Hc. now apply IH.
Qed.

Lemma trim_all_white (s : string) : Js.all_white s = true -> Js.trim s = "".
Proof. intros H. unfold Js.trim. now rewrite trim_start_all_white. Qed.

(** C7.  When the text field holds the empty string or white space
    only, [_sendText] returns at once: it is not suspended on a call to
    the client's [sendText] (the call is never made) and the widget,
    transcript included, is unchanged. *)
Theorem sendText_blank_is_noop (w : widget) (e : Elements) :
  _elements w = Some e ->
  Js.all_white (textInput e) = true ->
  _sendText w = Finished Normal w.
Proof.
  intros He Hblank. unfold _sendText. rewrite He.
  now rewrite (trim_all_white _ Hblank).
Qed.

Lemma sendText_blank_is_noop_witness :
  _sendText (Sample.typed "   " (Sample.ready Sample.full_client)) =
    Finished Normal (Sample.typed "   " (Sample.ready Sample.full_client)).
Proof.
  assert (He : exists e, _elements (Sample.typed "   " (Sample.ready Sample.full_client))
                         = Some e /\ Js.all_white (textInput e) = true)
    by (eexists; split; vm_compute; reflexivity).
  destruct He as (e & He & Hblank).
  exact (sendText_blank_is_noop _ e He Hblank).
Defined.

(** C6.  With text in the field and a client that has [sendText],
    [_sendText] calls it with the trimmed text and waits.  When the call
    resolves, exactly one entry, of class [msg user] and with that text,
    is appended to the transcript and the field is emptied.  When the
    call throws, the elements are left as they are (no entry, the field
    untouched) and the failure is logged. *)
Theorem sendText_appends_on_success_only (w : widget) (e : Elements) (c : Client) :
  _elements w = Some e -> _vapi w = Some c -> vapi_sendText c = true ->
  Js.trim (textInput e) <> "" ->
  exists resume,
    _sendText w = Suspended (VapiSendText (Js.trim (textInput e))) w resume /\
    (forall w1 e1, _elements w1 = Some e1 ->
       exists w2 e2,
         resume Resolved w1 = Finished Normal w2 /\ _elements w2 = Some e2 /\
         chat e2 = (chat e1 ++ [("msg user", Js.trim (textInput e))])%list /\
         textInput e2 = "") /\
    (forall w1 err,
       exists w2,
         resume (Rejected err) w1 = Finished Normal w2 /\
         _elements w2 = _elements w1).
Proof.
  intros He Hc Hs Hvalue. unfold _sendText. rewrite He, Hc, Hs.
  destruct (Js.trim (textInput e)) as [|a v] eqn:Hv; [contradiction|].
  cbn [Js.is_empty]. eexists. split; [reflexivity|]. split.
  - intros w1 e1 He1. cbn [after_sendText]. statements. fields. rewrite He1. fields.
    eexists _, _. split; [reflexivity|]. fields. easy.
  - intros w1 err. eexists. split; reflexivity.
Qed.

Lemma sendText_appends_on_success_only_witness :
  (exists w2 e2,
      settle [Resolved]
        (_sendText (Sample.typed " hello " (Sample.ready Sample.full_client)))
        = Finished Normal w2 /\
      _elements w2 = Some e2 /\ chat e2 = [("msg user", "hello")] /\
      textInput e2 = "") /\
  (exists w2,
      settle [Rejected (Failure "send")]
        (_sendText (Sample.typed " hello " (Sample.ready Sample.full_client)))
        = Finished Normal w2 /\
      _elements w2 =
        _elements (Sample.typed " hello " (Sample.ready Sample.full_client))).
Proof.
  set (w := Sample.typed " hello " (Sample.ready Sample.full_client)).
  assert (He : exists e, _elements w = Some e /\ Js.trim (textInput e) = "hello" /\
                         chat e = [])
    by (eexists; repeat split; vm_compute; reflexivity).
  destruct He as (e & He & Htrim & Hchat).
  assert (Hc : _vapi w = Some Sample.full_client) by (vm_compute; reflexivity).
  destruct (sendText_appends_on_success_only w e Sample.full_client He Hc eq_refl)
    as (resume & Hrun & Hok & Hfail).
  { rewrite Htrim. discriminate. }
  rewrite Hrun. cbn [settle]. split.
  - destruct (Hok w e He) as (w2 & e2 & H2 & He2 & Hchat2 & Hin).
    exists w2, e2. rewrite Hchat, Htrim in Hchat2.
    split; [exact H2|]. split; [exact He2|]. split; [exact Hchat2 | exact Hin].
  - destruct (Hfail w (Failure "send")) as (w2 & H2 & He2).
    exists w2. split; [exact H2 | exact He2].
Defined.

End WidgetFacts.

(** ** [encodeURIComponent] on strings of any code units *)

Section Encoding.

Lemma surrogate_ranges (n : N) :
  (Js.is_high_surrogate n = true <-> (55296 <= n < 56320)%N) /\
  (Js.is_low_surrogate n = true <-> (56320 <= n < 57344)%N).
Proof.
  unfold Js.is_high_surrogate, Js.is_low_surrogate.
  rewrite !andb_true_iff, !N.leb_le, !N.ltb_lt. tauto.
Qed.

(** Induction that follows the encoder, which reads one or two units. *)
Lemma wide_ind2 (P : Js.wide -> Prop) :
  P [] -> (forall u, P [u]) ->
  (forall u v rest, P rest -> P (v :: rest) -> P (u :: v :: rest)) ->
  forall w, P w.
Proof.
  intros H0 H1 H2 w.
  assert (H : P w /\ forall u, P (u :: w)).
  { induction w as [|v rest [IH1 IH2]].
    - split; [exact H0 | exact H1].
    - split; [apply IH2|]. intros u. apply H2; [exact IH1 | apply IH2]. }
  apply H.
Qed.

Lemma encode_units_pair (u v : Js.unit16) (rest : Js.wide) :
  Js.encode_units (u :: v :: rest) =
    if (Js.code u <? 256)%N
    then option_map (String.append (Js.encode_char (snd u))) (Js.encode_units (v :: rest))
    else if (Js.code u <? 2048)%N
    then option_map (String.append (Js.escape2 (Js.code u))) (Js.encode_units (v :: rest))
    else if Js.is_high_surrogate (Js.code u)
    then if Js.is_low_surrogate (Js.code v)
         then option_map
                (String.append (Js.escape4 (Js.code_point (Js.code u) (Js.code v))))
                (Js.encode_units rest)
         else None
    else if Js.is_low_surrogate (Js.code u) then None
    else option_map (String.append (Js.escape3 (Js.code u))) (Js.encode_units (v :: rest)).
Proof. reflexivity. Qed.


(** On a string of code units below 256 the encoder is [encode_string]. *)
Lemma encode_units_widen (s : string) :
  Js.encode_units (Js.widen s) = Some (Js.encode_string s).
Proof.
  induction s as [|c s IH]; [reflexivity|].
  cbn [Js.widen Js.encode_units Js.encode_string].
  change (Js.code (zero, c)) with (N_of_ascii c).
  pose proof (N_ascii_bounded c) as Hc. apply N.ltb_lt in Hc.
  rewrite Hc, IH. reflexivity.
Qed.

End Encoding.

(** ** Properties of the iframe host *)

Section HostFacts.

Import Host.

Lemma is_string_eq (v : Js.value) (lit : string) :
  Js.is_string v lit = true -> v = Js.VStr lit.
Proof.
  destruct v; cbn; try discriminate. now intros ->%String.eqb_eq.
Qed.

Lemma type_of_host_message (type : string) :
  type_of (host_message type) = Js.VStr type.
Proof.
  unfold type_of, host_message, Js.object, Js.get. cbn [list_to_map foldr uncurry].
  rewrite lookup_insert_ne by discriminate. now rewrite lookup_insert_eq.
Qed.

Lemma type_of_sendText_message (text : string) :
  type_of (sendText_message text) = Js.VStr "sendText".
Proof.
  unfold type_of, sendText_message, Js.object, Js.get. cbn [list_to_map foldr uncurry].
  rewrite lookup_insert_ne by discriminate. now rewrite lookup_insert_eq.
Qed.

Lemma posted_toggle (h : host) :
  posted (doc (toggle h)) =
    (posted (doc h) ++
       [(HostWindow, host_message (if negb (open h) then "open" else "close"))])%list.
Proof. reflexivity. Qed.

Lemma posted_on_message (data : Js.value) (h : host) :
  posted (doc (on_message data h)) = posted (doc h) \/
  posted (doc (on_message data h)) =
    (posted (doc h) ++ [(HostWindow, host_message "close")])%list.
Proof.
  unfold on_message.
  destruct (negb (Js.truthy data) || _); [now left|].
  destruct (Js.is_string (Js.get data "type") "state"),
           (Js.is_string (Js.get data "type") "error"),
           (Js.is_string (Js.get data "type") "close");
    cbn [andb]; try (now left);
    cbn [open set_doc set_fab];
    destruct (open h) eqn:Ho; try (now left);
    right; rewrite posted_toggle; cbn [open set_doc set_fab doc posted warn];
    now rewrite Ho.
Qed.

(** What one event adds to the messages posted so far. *)
Lemma step_routed (ev : event) (h : host) :
  exists sent,
    posted (doc (step ev h)) = (posted (doc h) ++ sent)%list /\ Forall routed sent.
Proof.
  assert (Htoggle : forall h0, exists sent,
            posted (doc (toggle h0)) = (posted (doc h0) ++ sent)%list /\
            Forall routed sent).
  { intros h0. eexists. split; [apply posted_toggle|].
    constructor; [|constructor]. cbn. destruct (open h0); cbn; auto. }
  assert (Hnone : exists sent,
            posted (doc h) = (posted (doc h) ++ sent)%list /\ Forall routed sent).
  { exists []. split; [now rewrite app_nil_r | constructor]. }
  destruct ev as [|data| | |t]; cbn [step].
  - apply Htoggle.
  - destruct (posted_on_message data h) as [-> | ->]; [exact Hnone|].
    eexists. split; [reflexivity|]. constructor; [|constructor]. cbn. auto.
  - unfold handle_open. destruct (negb (open h)); [apply Htoggle | exact Hnone].
  - unfold handle_close. destruct (open h); [apply Htoggle | exact Hnone].
  - unfold handle_sendText. destruct (connected (root h)); [|exact Hnone].
    destruct (coerce t) as [text|]; [|exact Hnone].
    eexists. split; [reflexivity|]. constructor; [|constructor]. cbn. eauto.
Qed.

Lemma run_routed (evs : list event) (h : host) :
  exists sent,
    posted (doc (run evs h)) = (posted (doc h) ++ sent)%list /\ Forall routed sent.
Proof.
  revert h. induction evs as [|ev evs IH]; intros h.
  - exists []. split; [cbn; now rewrite app_nil_r | constructor].
  - destruct (step_routed ev h) as (s1 & H1 & R1).
    destruct (IH (step ev h)) as (s2 & H2 & R2).
    exists (s1 ++ s2)%list. split.
    + unfold run in *. cbn [fold_left]. rewrite H2, H1. now rewrite app_assoc.
    + apply Forall_app. now split.
Qed.

(** C4.  A toggle posts its [open] or [close] message on the window of
    the host page.  Whatever happens to a mounted loader (clicks, inbound
    messages, calls on the handle), each message it posts on the host
    window is an [open] or a [close], and each message it posts on the
    content window of the frame is a [sendText]: no [open] or [close]
    ever goes to the frame. *)
Theorem open_close_never_posted_to_frame (evs : list event) (h : host) :
  posted (doc (toggle h)) =
    (posted (doc h) ++
       [(HostWindow, host_message (if negb (open h) then "open" else "close"))])%list /\
  exists sent,
    posted (doc (run evs h)) = (posted (doc h) ++ sent)%list /\
    forall target message, In (target, message) sent ->
      match target with
      | HostWindow =>
          type_of message = Js.VStr "open" \/ type_of message = Js.VStr "close"
      | FrameWindow => type_of message = Js.VStr "sendText"
      end.
Proof.
  split; [apply posted_toggle|].
  destruct (run_routed evs h) as (sent & Hsent & Hrouted).
  exists sent. split; [exact Hsent|].
  intros target message Hin.
  apply (proj1 (List.Forall_forall _ _) Hrouted) in Hin as Hrouted'. clear Hrouted.
  rename Hrouted' into Hrouted.
  destruct target; cbn in Hrouted.
  - destruct Hrouted as [-> | ->]; rewrite type_of_host_message; auto.
  - destruct Hrouted as [text ->]. apply type_of_sendText_message.
Qed.

(** C8.  The listener ignores a message that has no data or whose
    [source] is not ["NXL_IFRAME"]: the loader, with its flag, its
    elements, the console and the messages posted, is left as it was. *)
Theorem foreign_message_ignored (data : Js.value) (h : host) :
  from_peer data = false -> on_message data h = h.
Proof.
  unfold from_peer, on_message. intros H.
  destruct (Js.truthy data); cbn [negb orb andb] in *; [|reflexivity].
  now rewrite H.
Qed.

Lemma foreign_message_ignored_witness :
  on_message (host_message "open") (toggle Sample.mounted_host) = toggle Sample.mounted_host /\
  on_message Js.VUndefined Sample.mounted_host = Sample.mounted_host.
Proof.
  split.
  - apply foreign_message_ignored. vm_compute. reflexivity.
  - apply foreign_message_ignored. reflexivity.
Defined.

(** C9.  A [close] message from the frame that arrives while [open] is
    [false] changes nothing: the flag, the classes of the frame and the
    messages posted are as before (no second [close] is posted). *)
Theorem close_while_closed_ignored (data : Js.value) (h : host) :
  from_peer data = true ->
  Js.is_string (Js.get data "type") "close" = true ->
  open h = false ->
  on_message data h = h.
Proof.
  unfold from_peer, on_message. intros [Ht Hs]%andb_true_iff Hclose Hopen.
  rewrite Ht, Hs. cbn [negb orb].
  rewrite (is_string_eq _ _ Hclose). cbn. now rewrite Hopen.
Qed.

Lemma close_while_closed_ignored_witness :
  on_message (Js.object [("source", Js.VStr "NXL_IFRAME"); ("type", Js.VStr "close")])
    Sample.mounted_host = Sample.mounted_host.
Proof.
  apply close_while_closed_ignored; vm_compute; reflexivity.
Defined.

(** What a mount that returned has done. *)
Lemma mounted_parts (p : page) (opts : option Options) (h : host) :
  mountIframeWidget p opts = inr h ->
  exists target position key assistant,
    opts ≫= mount = Some target /\
    position_of opts = Js.VStr position /\
    Js.encodeURIComponent (opts ≫= publicKey) = Some key /\
    Js.encodeURIComponent (opts ≫= assistantId) = Some assistant /\
    h = {| doc := ensureStyle
                    (if missing (opts ≫= publicKey) || missing (opts ≫= assistantId)
                     then warn "[NXL] Missing Vapi keys." None p else p);
           root := appendChild Frame (appendChild FabButton target);
           fab := placed "nxl-fab" position;
           fab_label := "Open AI Assistant";
           frame := placed "nxl-frame" position;
           frame_allow := "microphone; autoplay";
           frame_src :=
             match opts ≫= widgetUrl with
             | Some url => if Js.is_empty url then "nxl-iframe.html" else url
             | None => "nxl-iframe.html"
             end +:+ "?publicKey=" +:+ key +:+ "&assistantId=" +:+ assistant
               +:+ "&host=" +:+
               Js.encode_string
                 (origin (ensureStyle
                    (if missing (opts ≫= publicKey) || missing (opts ≫= assistantId)
                     then warn "[NXL] Missing Vapi keys." None p else p)));
           open := false |}.
Proof.
  unfold mountIframeWidget. destruct (opts ≫= mount) as [target|]; [|discriminate].
  destruct (position_of opts) as [| | | | |position|]; try discriminate.
  destruct (Js.encodeURIComponent (opts ≫= publicKey)) as [key|]; [|discriminate].
  destruct (Js.encodeURIComponent (opts ≫= assistantId)) as [assistant|]; [|discriminate].
  intros [= <-]. exists target, position, key, assistant. repeat split.
Qed.





End HostFacts.

(** ** Class lists *)

Section ClassLists.

Lemma contains_add_other (name other : string) (cl : gset string) :
  name <> other ->
  ClassList.contains name (ClassList.add other cl) = ClassList.contains name cl.
Proof.
  intros Hne. unfold ClassList.contains, ClassList.add.
  apply bool_decide_ext. rewrite elem_of_union, elem_of_singleton. tauto.
Qed.

Lemma contains_remove_other (name other : string) (cl : gset string) :
  name <> other ->
  ClassList.contains name (ClassList.remove other cl) = ClassList.contains name cl.
Proof.
  intros Hne. unfold ClassList.contains, ClassList.remove.
  apply bool_decide_ext. rewrite elem_of_difference, elem_of_singleton. tauto.
Qed.

Lemma contains_toggle_force_other (name other : string) (force : bool) (cl : gset string) :
  name <> other ->
  ClassList.contains name (ClassList.toggle_force other force cl) =
  ClassList.contains name cl.
Proof.
  intros Hne. unfold ClassList.toggle_force.
  destruct force; [now apply contains_add_other | now apply contains_remove_other].
Qed.

Lemma contains_toggle_other (name other : string) (cl : gset string) :
  name <> other ->
  ClassList.contains name (ClassList.toggle other cl) = ClassList.contains name cl.
Proof. intros Hne. unfold ClassList.toggle. now apply contains_toggle_force_other. Qed.

Lemma contains_toggle_force (name : string) (force : bool) (cl : gset string) :
  ClassList.contains name (ClassList.toggle_force name force cl) = force.
Proof.
  unfold ClassList.contains, ClassList.toggle_force, ClassList.add, ClassList.remove.
  destruct force.
  - apply bool_decide_eq_true, elem_of_union_l, elem_of_singleton. reflexivity.
  - apply bool_decide_eq_false. rewrite elem_of_difference, elem_of_singleton. tauto.
Qed.

Lemma toggle_force_twice (name : string) (a b : bool) (cl : gset string) :
  ClassList.toggle_force name b (ClassList.toggle_force name a cl) =
  ClassList.toggle_force name b cl.
Proof.
  unfold ClassList.toggle_force, ClassList.add, ClassList.remove.
  apply set_eq. intros x. destruct (decide (x = name)) as [Hx | Hx];
    destruct a, b;
    repeat (rewrite elem_of_union || rewrite elem_of_difference
            || rewrite elem_of_singleton);
    tauto.
Qed.

Lemma toggle_toggle (name : string) (cl : gset string) :
  ClassList.toggle name (ClassList.toggle name cl) = cl.
Proof.
  unfold ClassList.toggle.
  destruct (ClassList.contains name cl) eqn:Hin; cbn [negb ClassList.toggle_force];
    [rewrite contains_remove | rewrite contains_add];
    cbn [negb ClassList.toggle_force];
    unfold ClassList.contains in Hin; unfold ClassList.add, ClassList.remove;
    [apply bool_decide_eq_true in Hin | apply bool_decide_eq_false in Hin];
    apply set_eq; intros x;
    rewrite ?elem_of_union, ?elem_of_difference, ?elem_of_union, ?elem_of_singleton;
    destruct (decide (x = name)) as [->|]; tauto.
Qed.

End ClassLists.

(** ** Further properties of the iframe host *)

Section HostProtocol.

Import Host Wire.

Lemma placed_not_open (base position : string) :
  base <> "nxl-open" -> ClassList.contains "nxl-open" (placed base position) = false.
Proof.
  intros Hbase. unfold ClassList.contains, placed. apply bool_decide_eq_false.
  destruct (Js.includes "left" position);
    rewrite ?elem_of_union, !elem_of_singleton; intros H;
    repeat destruct H as [H | H]; try congruence; discriminate.
Qed.

Lemma anchored_refl (h : host) : anchored h h.
Proof. repeat split. Qed.

Lemma anchored_trans (a b c : host) : anchored a b -> anchored b c -> anchored a c.
Proof.
  unfold anchored.
  intros (?&?&?&?&?&?&?) (?&?&?&?&?&?&?).
  repeat split; congruence.
Qed.

Lemma toggle_anchored (h : host) : anchored h (toggle h).
Proof. repeat split. Qed.

Lemma toggle_styled (h : host) : styled (toggle h).
Proof.
  unfold styled, toggle. cbn [frame open set_doc set_frame set_open].
  apply contains_toggle_force.
Qed.

(** The listener on a message of the frame, branch by branch. *)
Lemma on_message_cases (data : Js.value) (h : host) :
  (from_peer data = false /\ on_message data h = h) \/
  (from_peer data = true /\
   ((Js.is_string (Js.get data "type") "state" = true /\
     on_message data h =
       set_fab (ClassList.toggle_force "nxl-pulse" (listening_of data)) h) \/
    (Js.is_string (Js.get data "type") "error" = true /\
     on_message data h =
       set_doc (warn "[NXL iframe] error:" (Some (Js.get data "payload"))) h) \/
    (Js.is_string (Js.get data "type") "close" = true /\ open h = true /\
     on_message data h = toggle h) \/
    on_message data h = h)).
Proof.
  unfold on_message, from_peer, listening_of.
  destruct (Js.truthy data); cbn [negb orb andb]; [|left; easy].
  destruct (Js.is_string (Js.get data "source") "NXL_IFRAME"); cbn [negb];
    [right; split; [reflexivity|] | left; easy].
  destruct (Js.get data "type") as [| | | | |s|]; cbn [Js.is_string andb];
    try (right; right; right; reflexivity).
  destruct (String.eqb_spec s "state") as [->|Hstate].
  { left. split; [reflexivity|]. cbn. reflexivity. }
  destruct (String.eqb_spec s "error") as [->|Herror].
  { right; left. split; [reflexivity|]. cbn. reflexivity. }
  destruct (String.eqb_spec s "close") as [->|Hclose]; cbn [andb].
  - destruct (open h) eqn:Ho.
    + right; right; left. easy.
    + right; right; right. reflexivity.
  - right; right; right. reflexivity.
Qed.

Lemma on_message_anchored (data : Js.value) (h : host) : anchored h (on_message data h).
Proof.
  destruct (on_message_cases data h)
    as [[_ ->] | [_ [[_ ->] | [[_ ->] | [(_ & _ & ->) | ->]]]]];
    repeat split.
Qed.

Lemma on_message_styled (data : Js.value) (h : host) :
  styled h -> styled (on_message data h).
Proof.
  intros Hs.
  destruct (on_message_cases data h)
    as [[_ ->] | [_ [[_ ->] | [[_ ->] | [(_ & _ & ->) | ->]]]]];
    try exact Hs. apply toggle_styled.
Qed.

Lemma step_styled (ev : event) (h : host) : styled h -> styled (step ev h).
Proof.
  intros Hs. destruct ev as [|data| | |t]; cbn [step].
  - apply toggle_styled.
  - now apply on_message_styled.
  - unfold handle_open. destruct (negb (open h)); [apply toggle_styled | exact Hs].
  - unfold handle_close. destruct (open h) eqn:Ho; [apply toggle_styled | exact Hs].
  - unfold handle_sendText. destruct (connected (root h)); [|exact Hs].
    destruct (coerce t); exact Hs.
Qed.

Lemma step_anchored (ev : event) (h : host) : anchored h (step ev h).
Proof.
  destruct ev as [|data| | |t]; cbn [step].
  - apply toggle_anchored.
  - apply on_message_anchored.
  - unfold handle_open. destruct (negb (open h)); [apply toggle_anchored | apply anchored_refl].
  - unfold handle_close. destruct (open h); [apply toggle_anchored | apply anchored_refl].
  - unfold handle_sendText. destruct (connected (root h)); [|apply anchored_refl].
    destruct (coerce t); repeat split.
Qed.

Lemma run_cons (ev : event) (evs : list event) (h : host) :
  run (ev :: evs) h = run evs (step ev h).
Proof. reflexivity. Qed.

(** X1.  After [mountIframeWidget], whatever events follow (clicks on the
    fab, inbound messages, calls on the handle), the frame carries the
    class [nxl-open] exactly when the flag [open] is true, and the mount
    point, the address and the [allow] attribute of the frame, the label
    of the fab and the style, ids and origin of the page are never
    changed again. *)
Theorem frame_class_follows_flag (p : page) (opts : option Options) (h : host)
    (evs : list event) :
  mountIframeWidget p opts = inr h ->
  ClassList.contains "nxl-open" (frame (run evs h)) = open (run evs h) /\
  anchored h (run evs h).
Proof.
  intros Hmount.
  assert (H0 : styled h).
  { destruct (mounted_parts p opts h Hmount) as (target & position & key & assistant & Hh).
    destruct Hh as (_ & _ & _ & _ & ->). unfold styled. cbn [frame open].
    apply placed_not_open. discriminate. }
  clear Hmount. fold (styled (run evs h)).
  assert (Hgen : forall h0, styled h0 -> styled (run evs h0) /\ anchored h0 (run evs h0)).
  { induction evs as [|ev evs IH]; intros h0 Hs.
    - split; [exact Hs | apply anchored_refl].
    - rewrite run_cons. destruct (IH (step ev h0) (step_styled ev h0 Hs)) as [H1 H2].
      split; [exact H1|]. eapply anchored_trans; [apply step_anchored | exact H2]. }
  now apply Hgen.
Qed.

Lemma frame_class_follows_flag_witness :
  ClassList.contains "nxl-open"
    (frame (run [ClickFab; CallClose; CallOpen; Message (peer_message "close" Js.VUndefined)]
              Sample.mounted_host)) = false.
Proof.
  destruct (frame_class_follows_flag Sample.page (Some Sample.options) Sample.mounted_host
              [ClickFab; CallClose; CallOpen; Message (peer_message "close" Js.VUndefined)])
    as [H _]; [vm_compute; reflexivity|].
  rewrite H. vm_compute. reflexivity.
Defined.

Lemma posted_on_app (target : window) (a b : list (window * Js.value)) :
  posted_on target (a ++ b) = (posted_on target a ++ posted_on target b)%list.
Proof. unfold posted_on. now rewrite List.filter_app, map_app. Qed.

Lemma alternate_app (opened : bool) (n m : nat) :
  alternate opened (n + m) =
  (alternate opened n ++ alternate (xorb opened (Nat.odd n)) m)%list.
Proof.
  revert opened. induction n as [|n IH]; intros opened.
  - cbn. now rewrite xorb_false_r.
  - cbn [alternate Nat.add app]. rewrite IH. f_equal. f_equal. f_equal.
    rewrite Nat.odd_succ, <- Nat.negb_odd.
    destruct opened, (Nat.odd n); reflexivity.
Qed.

Lemma posted_on_toggle (h : host) :
  posted_on HostWindow (posted (doc (toggle h))) =
  (posted_on HostWindow (posted (doc h)) ++ alternate (open h) 1)%list /\
  open (toggle h) = xorb (open h) (Nat.odd 1).
Proof.
  split.
  - unfold toggle. cbn [doc posted set_doc set_frame set_open post open].
    rewrite posted_on_app. cbn. now destruct (open h).
  - cbn. now destruct (open h).
Qed.

Lemma step_broadcasts (ev : event) (h : host) :
  exists n,
    posted_on HostWindow (posted (doc (step ev h))) =
      (posted_on HostWindow (posted (doc h)) ++ alternate (open h) n)%list /\
    open (step ev h) = xorb (open h) (Nat.odd n).
Proof.
  assert (Hnone : exists n,
            posted_on HostWindow (posted (doc h)) =
              (posted_on HostWindow (posted (doc h)) ++ alternate (open h) n)%list /\
            open h = xorb (open h) (Nat.odd n)).
  { exists 0. cbn. now rewrite app_nil_r, xorb_false_r. }
  assert (Hflip : exists n,
            posted_on HostWindow (posted (doc (toggle h))) =
              (posted_on HostWindow (posted (doc h)) ++ alternate (open h) n)%list /\
            open (toggle h) = xorb (open h) (Nat.odd n)).
  { exists 1. apply posted_on_toggle. }
  destruct ev as [|data| | |t]; cbn [step].
  - exact Hflip.
  - destruct (on_message_cases data h)
      as [[_ ->] | [_ [[_ ->] | [[_ ->] | [(_ & _ & ->) | ->]]]]];
      try exact Hnone; exact Hflip.
  - unfold handle_open. destruct (negb (open h)); [exact Hflip | exact Hnone].
  - unfold handle_close. destruct (open h) eqn:Ho; [exact Hflip|].
    rewrite Ho. exact Hnone.
  - unfold handle_sendText. destruct (connected (root h)); [|exact Hnone].
    destruct (coerce t) as [text|]; [|exact Hnone].
    exists 0. cbn [doc posted set_doc post open alternate]. rewrite posted_on_app.
    cbn. now rewrite !app_nil_r, xorb_false_r.
Qed.

(** X2.  Over any run of events the messages posted on the window of the
    host page are [open] and [close] in turn, the first one announcing
    the flip of the flag the run started with, and the flag at the end is
    the flag at the start flipped once per message: every flip of the
    flag is announced exactly once, and nothing else is posted there. *)
Theorem broadcasts_alternate (evs : list event) (h : host) :
  exists n,
    posted_on HostWindow (posted (doc (run evs h))) =
      (posted_on HostWindow (posted (doc h)) ++ alternate (open h) n)%list /\
    open (run evs h) = xorb (open h) (Nat.odd n).
Proof.
  revert h. induction evs as [|ev evs IH]; intros h.
  - exists 0. cbn. now rewrite app_nil_r, xorb_false_r.
  - rewrite run_cons. destruct (step_broadcasts ev h) as (n & Hn & Hon).
    destruct (IH (step ev h)) as (m & Hm & Hom).
    exists (n + m). rewrite Hm, Hn, Hom, Hon, alternate_app, <- app_assoc.
    split; [reflexivity|]. rewrite Nat.odd_add.
    destruct (open h), (Nat.odd n), (Nat.odd m); reflexivity.
Qed.

(** X3.  While the panel is closed no sequence of inbound messages,
    whatever their source, type and payload, opens it, posts a message or
    changes the classes of the frame: the frame can close the panel, never
    open it. *)
Theorem peer_never_opens (datas : list Js.value) (h : host) :
  open h = false ->
  open (run (map Message datas) h) = false /\
  posted (doc (run (map Message datas) h)) = posted (doc h) /\
  frame (run (map Message datas) h) = frame h.
Proof.
  revert h. induction datas as [|data datas IH]; intros h Ho; [easy|].
  cbn [map]. rewrite run_cons. cbn [step].
  destruct (on_message_cases data h)
    as [[_ Heq] | [_ [[_ Heq] | [[_ Heq] | [(_ & Hopen & _) | Heq]]]]];
    try congruence; rewrite Heq.
  - apply IH. exact Ho.
  - destruct (IH (set_fab (ClassList.toggle_force "nxl-pulse" (listening_of data)) h) Ho)
      as (H1 & H2 & H3). easy.
  - destruct (IH (set_doc (warn "[NXL iframe] error:" (Some (Js.get data "payload"))) h) Ho)
      as (H1 & H2 & H3). easy.
  - apply IH. exact Ho.
Qed.

Lemma peer_never_opens_witness :
  open (run (map Message [peer_message "open" Js.VUndefined;
                          peer_message "state" (Js.object [("listening", Js.VBool true)]);
                          peer_message "close" Js.VUndefined])
          Sample.mounted_host) = false.
Proof.
  apply (peer_never_opens _ Sample.mounted_host). vm_compute. reflexivity.
Defined.

(** X4.  A [close] message of the frame that arrives while the panel is
    open closes it: the flag becomes false, the frame loses [nxl-open],
    exactly one [close] is posted on the window of the host page, and the
    fab and the console are left alone. *)
Theorem peer_close_while_open (data : Js.value) (h : host) :
  from_peer data = true ->
  Js.is_string (Js.get data "type") "close" = true ->
  open h = true ->
  open (on_message data h) = false /\
  ClassList.contains "nxl-open" (frame (on_message data h)) = false /\
  posted (doc (on_message data h)) =
    (posted (doc h) ++ [(HostWindow, host_message "close")])%list /\
  fab (on_message data h) = fab h /\
  console (doc (on_message data h)) = console (doc h).
Proof.
  unfold from_peer, on_message. intros [Ht Hs]%andb_true_iff Hclose Hopen.
  rewrite Ht, Hs. cbn [negb orb].
  rewrite (is_string_eq _ _ Hclose). cbn [Js.is_string String.eqb Ascii.eqb Bool.eqb andb].
  cbn [open]. rewrite Hopen. unfold toggle.
  cbn [open frame fab doc posted console set_doc set_frame set_open post].
  rewrite Hopen. cbn [negb]. split; [reflexivity|].
  split; [apply (contains_toggle_force "nxl-open" false)|]. easy.
Qed.

Lemma peer_close_while_open_witness :
  open (on_message (peer_message "close" Js.VUndefined) (toggle Sample.mounted_host)) = false.
Proof.
  apply peer_close_while_open; vm_compute; reflexivity.
Defined.

Lemma on_message_state (data : Js.value) (h : host) :
  from_peer data = true ->
  Js.is_string (Js.get data "type") "state" = true ->
  on_message data h = set_fab (ClassList.toggle_force "nxl-pulse" (listening_of data)) h.
Proof.
  unfold from_peer, on_message, listening_of. intros [Ht Hs]%andb_true_iff Hstate.
  rewrite Ht, Hs. cbn [negb orb]. rewrite (is_string_eq _ _ Hstate). reflexivity.
Qed.

(** X5.  For [state] messages of the frame the last one wins: after two
    of them the loader is as after the second alone, the fab carrying
    [nxl-pulse] exactly when the [payload.listening] of that message is
    truthy; the flag, the frame and the page are untouched. *)
Theorem state_last_write_wins (first second : Js.value) (h : host) :
  from_peer first = true -> Js.is_string (Js.get first "type") "state" = true ->
  from_peer second = true -> Js.is_string (Js.get second "type") "state" = true ->
  on_message second (on_message first h) = on_message second h /\
  ClassList.contains "nxl-pulse" (fab (on_message second h)) = listening_of second /\
  open (on_message second h) = open h /\
  frame (on_message second h) = frame h /\
  doc (on_message second h) = doc h.
Proof.
  intros Hp1 Hs1 Hp2 Hs2.
  rewrite !(on_message_state second) by assumption.
  rewrite (on_message_state first) by assumption.
  split.
  - unfold set_fab. cbn [doc root fab fab_label frame frame_allow frame_src open].
    now rewrite toggle_force_twice.
  - cbn [fab set_fab open frame doc]. split; [apply contains_toggle_force | easy].
Qed.

Lemma state_last_write_wins_witness :
  ClassList.contains "nxl-pulse"
    (fab (on_message (peer_message "state" (Js.object [("listening", Js.VBool false)]))
            (on_message (peer_message "state" (Js.object [("listening", Js.VBool true)]))
               Sample.mounted_host))) = false.
Proof.
  destruct (state_last_write_wins
              (peer_message "state" (Js.object [("listening", Js.VBool true)]))
              (peer_message "state" (Js.object [("listening", Js.VBool false)]))
              Sample.mounted_host) as (H1 & H2 & _);
    [vm_compute; reflexivity .. |].
  rewrite H1, H2. vm_compute. reflexivity.
Defined.

(** X6.  What an inbound message can touch.  It never changes the mount
    point, the attributes of the elements or the style.  The classes of
    the fab change only on a [state] message of the frame; the console
    only on an [error] message of the frame; the flag, the classes of the
    frame and the messages posted only on a [close] message of the frame
    received while open. *)
Theorem message_effects_by_type (data : Js.value) (h : host) :
  anchored h (on_message data h) /\
  (fab (on_message data h) <> fab h ->
     from_peer data = true /\ Js.is_string (Js.get data "type") "state" = true) /\
  (console (doc (on_message data h)) <> console (doc h) ->
     from_peer data = true /\ Js.is_string (Js.get data "type") "error" = true) /\
  (open (on_message data h) <> open h \/ frame (on_message data h) <> frame h \/
   posted (doc (on_message data h)) <> posted (doc h) ->
     from_peer data = true /\ Js.is_string (Js.get data "type") "close" = true /\
     open h = true).
Proof.
  split; [apply on_message_anchored|].
  destruct (on_message_cases data h)
    as [[_ ->] | [Hp [[Hs ->] | [[He ->] | [(Hc & Ho & ->) | ->]]]]];
    cbn [fab frame open doc console posted set_fab set_doc warn toggle set_frame set_open post];
    repeat split; try assumption;
    try match goal with
        | H : _ <> _ |- _ => exfalso; apply H; reflexivity
        | H : _ \/ _ \/ _ |- _ => destruct H as [H | [H | H]]; exfalso; apply H; reflexivity
        end.
Qed.

Lemma ignored_unless_from_peer (data : Js.value) (h : host) :
  from_peer data = false -> on_message data h = h.
Proof.
  intros Hp. destruct (on_message_cases data h) as [[_ H] | [H _]]; congruence.
Qed.

Lemma source_of_host_message (type : string) :
  Js.get (host_message type) "source" = Js.VStr "NXL_HOST".
Proof.
  unfold host_message, Js.object, Js.get. cbn [list_to_map foldr uncurry].
  now rewrite lookup_insert_eq.
Qed.

Lemma source_of_sendText_message (text : string) :
  Js.get (sendText_message text) "source" = Js.VStr "NXL_HOST".
Proof.
  unfold sendText_message, Js.object, Js.get. cbn [list_to_map foldr uncurry].
  now rewrite lookup_insert_eq.
Qed.

Lemma payload_of_sendText_message (text : string) :
  Js.get (sendText_message text) "payload" = Js.VStr text.
Proof.
  unfold sendText_message, Js.object, Js.get. cbn [list_to_map foldr uncurry].
  rewrite !lookup_insert_ne by discriminate. now rewrite lookup_insert_eq.
Qed.

(** X7.  Every message the loader posts, on either window, carries the
    source ["NXL_HOST"], and the loader's own listener ignores it: its
    broadcasts on the window of the host page, which come back to that
    listener, never make it act. *)
Theorem posted_messages_tagged (evs : list event) (h : host) :
  exists sent,
    posted (doc (run evs h)) = (posted (doc h) ++ sent)%list /\
    forall target message, In (target, message) sent ->
      Js.get message "source" = Js.VStr "NXL_HOST" /\
      forall h', on_message message h' = h'.
Proof.
  destruct (run_routed evs h) as (sent & Hsent & Hrouted).
  exists sent. split; [exact Hsent|]. intros target message Hin.
  apply (proj1 (List.Forall_forall _ _) Hrouted) in Hin.
  assert (Hsrc : Js.get message "source" = Js.VStr "NXL_HOST").
  { destruct target; cbn in Hin.
    - destruct Hin as [-> | ->]; apply source_of_host_message.
    - destruct Hin as [text ->]. apply source_of_sendText_message. }
  split; [exact Hsrc|]. intros h'. apply ignored_unless_from_peer.
  unfold from_peer. rewrite Hsrc. cbn. apply andb_false_r.
Qed.

(** X8.  [sendText(t)] with a string posts exactly one message on the
    content window of the frame, whose payload is that string as it is,
    blank or not; any falsy argument gives the empty payload, and any
    other argument the string its conversion gives.  The flag, the
    classes and the console are left alone.  While the mount point is
    outside the document, or when the conversion throws, the call throws
    and nothing changes. *)
Theorem sendText_forwards_any_text (t : Js.loose) (h : host) :
  match handle_sendText t h with
  | inr h' =>
      connected (root h) = true /\
      exists text,
        coerce t = Some text /\
        posted (doc h') =
          (posted (doc h) ++ [(FrameWindow, sendText_message text)])%list /\
        Js.get (sendText_message text) "payload" = Js.VStr text /\
        open h' = open h /\ frame h' = frame h /\ fab h' = fab h /\
        console (doc h') = console (doc h)
  | inl _ =>
      (connected (root h) = false \/ coerce t = None) /\ step (CallSendText t) h = h
  end /\
  (forall text, coerce (Js.Text text) = Some text) /\
  (forall converted, coerce (Js.NotText false converted) = Some "") /\
  (forall converted, coerce (Js.NotText true converted) = converted).
Proof.
  split; [|split; [|split]].
  - cbn [step]. unfold handle_sendText. destruct (connected (root h)) eqn:Hc.
    + destruct (coerce t) as [text|] eqn:Ht.
      * split; [reflexivity|]. exists text. split; [reflexivity|].
        cbn [doc posted console open frame fab set_doc post].
        rewrite payload_of_sendText_message. easy.
      * split; [now right | reflexivity].
    + split; [now left | reflexivity].
  - intros text. unfold coerce, Js.or_empty. now destruct text.
  - reflexivity.
  - reflexivity.
Qed.

Lemma ensureStyle_installed (p : page) : "nxl-style" ∈ ids (ensureStyle p).
Proof.
  unfold ensureStyle. destruct (bool_decide _) eqn:Hin.
  - now apply bool_decide_eq_true in Hin.
  - cbn [ids]. apply elem_of_union_l, elem_of_singleton. reflexivity.
Qed.

Lemma ensureStyle_again (p : page) : "nxl-style" ∈ ids p -> ensureStyle p = p.
Proof.
  intros Hin. unfold ensureStyle. now rewrite bool_decide_eq_true_2.
Qed.

(** X9.  The style element is installed once per page: after a first
    mount the id [nxl-style] is in the document, the head having gained
    at most that one element, and a second mount on the same page adds
    nothing to the head. *)
Theorem style_installed_once (p : page) (first second : option Options)
    (h1 h2 : host) :
  mountIframeWidget p first = inr h1 ->
  mountIframeWidget (doc h1) second = inr h2 ->
  "nxl-style" ∈ ids (doc h1) /\
  (head (doc h1) = head p \/ head (doc h1) = (head p ++ ["nxl-style"])%list) /\
  head (doc h2) = head (doc h1) /\
  ids (doc h2) = ids (doc h1).
Proof.
  intros Hfirst Hsecond.
  destruct (mounted_parts p first h1 Hfirst) as (? & ? & ? & ? & _ & _ & _ & _ & ->).
  destruct (mounted_parts _ second h2 Hsecond) as (? & ? & ? & ? & _ & _ & _ & _ & ->).
  cbn [doc].
  set (p1 := if missing (first ≫= publicKey) || missing (first ≫= assistantId)
             then warn "[NXL] Missing Vapi keys." None p else p).
  assert (Hp1 : ids p1 = ids p /\ head p1 = head p) by (subst p1; now destruct (_ || _)).
  destruct Hp1 as [Hids Hhead].
  pose proof (ensureStyle_installed p1) as Hin.
  split; [exact Hin|]. split.
  - unfold ensureStyle. destruct (bool_decide _); cbn [head]; rewrite Hhead; auto.
  - set (q := ensureStyle p1) in *.
    assert (Hq : "nxl-style" ∈
              ids (if missing (second ≫= publicKey) || missing (second ≫= assistantId)
                   then warn "[NXL] Missing Vapi keys." None q else q))
      by (destruct (missing (second ≫= publicKey) || missing (second ≫= assistantId));
          exact Hin).
    rewrite (ensureStyle_again _ Hq).
    now destruct (missing (second ≫= publicKey) || missing (second ≫= assistantId)).
Qed.

Lemma style_installed_once_witness :
  head (doc Sample.mounted_host) = ["nxl-style"] /\
  exists h2, mountIframeWidget (doc Sample.mounted_host) (Some Sample.options) = inr h2 /\
             head (doc h2) = ["nxl-style"].
Proof.
  split; [vm_compute; reflexivity|].
  destruct (mountIframeWidget (doc Sample.mounted_host) (Some Sample.options))
    as [|h2] eqn:H2; [vm_compute in H2; discriminate|].
  exists h2. split; [reflexivity|].
  destruct (style_installed_once Sample.page (Some Sample.options) (Some Sample.options)
              Sample.mounted_host h2) as (_ & _ & H & _);
    [vm_compute; reflexivity | exact H2 |].
  rewrite H. vm_compute. reflexivity.
Defined.

Lemma all_chars_app (p : ascii -> bool) (a b : string) :
  all_chars p (a +:+ b) = all_chars p a && all_chars p b.
Proof.
  induction a as [|c a IH]; [reflexivity|].
  change (String c a +:+ b) with (String c (a +:+ b)). cbn [all_chars].
  now rewrite IH, andb_assoc.
Qed.

Lemma encode_char_safe (c : ascii) : all_chars url_safe (Js.encode_char c) = true.
Proof.
  destruct c as [[] [] [] [] [] [] [] []]; vm_compute; reflexivity.
Qed.

Lemma encode_string_safe (s : string) : all_chars url_safe (Js.encode_string s) = true.
Proof.
  induction s as [|c s IH]; cbn [Js.encode_string]; [reflexivity|].
  now rewrite all_chars_app, encode_char_safe, IH.
Qed.

Lemma encode_string_plain (s : string) :
  all_chars Js.is_unreserved s = true -> Js.encode_string s = s.
Proof.
  induction s as [|c s IH]; cbn [all_chars Js.encode_string]; [reflexivity|].
  intros [Hc Hs]%andb_true_iff. unfold Js.encode_char. rewrite Hc, (IH Hs). reflexivity.
Qed.

Lemma code_bounded (u : Js.unit16) : (Js.code u < 65536)%N.
Proof.
  unfold Js.code.
  pose proof (N_ascii_bounded (fst u)). pose proof (N_ascii_bounded (snd u)). lia.
Qed.

Lemma hex_digit_safe (d : nat) : d < 16 -> url_safe (Js.hex_digit d) = true.
Proof.
  intros H. do 16 (destruct d as [|d]; [reflexivity|]). lia.
Qed.

Lemma escape_safe (b : N) : (b < 256)%N -> all_chars url_safe (Js.escape b) = true.
Proof.
  intros H. unfold Js.escape, Js.percent. cbn [all_chars].
  rewrite !hex_digit_safe; [reflexivity | |].
  - apply Nat.mod_upper_bound. discriminate.
  - apply Nat.Div0.div_lt_upper_bound. lia.
Qed.

(** Bounds on the bytes of a UTF-8 sequence. *)
Ltac bytes := zify; Z.to_euclidean_division_equations; lia.

Lemma escape2_safe (n : N) : (n < 2048)%N -> all_chars url_safe (Js.escape2 n) = true.
Proof.
  intros H. unfold Js.escape2.
  rewrite all_chars_app, !escape_safe; [reflexivity| |]; bytes.
Qed.

Lemma escape3_safe (n : N) : (n < 65536)%N -> all_chars url_safe (Js.escape3 n) = true.
Proof.
  intros H. unfold Js.escape3.
  rewrite !all_chars_app, !escape_safe; [reflexivity| | |]; bytes.
Qed.

Lemma escape4_safe (n : N) : (n < 1114112)%N -> all_chars url_safe (Js.escape4 n) = true.
Proof.
  intros H. unfold Js.escape4.
  rewrite !all_chars_app, !escape_safe; [reflexivity| | | |]; bytes.
Qed.

Lemma code_point_bounded (high low : N) :
  Js.is_high_surrogate high = true -> Js.is_low_surrogate low = true ->
  (Js.code_point high low < 1114112)%N.
Proof.
  intros Hh%surrogate_ranges Hl%surrogate_ranges. unfold Js.code_point. lia.
Qed.

(** Whatever the string, what [encodeURIComponent] returns holds only
    unreserved characters and percent escapes. *)
Lemma encode_units_safe (w : Js.wide) (s : string) :
  Js.encode_units w = Some s -> all_chars url_safe s = true.
Proof.
  revert s. induction w as [|u|u v rest IH1 IH2] using wide_ind2; intros s.
  - intros [= <-]. reflexivity.
  - cbn [Js.encode_units option_map]. pose proof (code_bounded u) as Hu.
    destruct (Js.code u <? 256)%N eqn:H1.
    { intros [= <-]. rewrite all_chars_app, encode_char_safe. reflexivity. }
    destruct (Js.code u <? 2048)%N eqn:H2.
    { intros [= <-]. apply N.ltb_lt in H2.
      rewrite all_chars_app, escape2_safe by exact H2. reflexivity. }
    destruct (Js.is_high_surrogate (Js.code u)); [discriminate|].
    destruct (Js.is_low_surrogate (Js.code u)); [discriminate|].
    intros [= <-]. rewrite all_chars_app, escape3_safe by exact Hu. reflexivity.
  - rewrite encode_units_pair. pose proof (code_bounded u) as Hu.
    destruct (Js.code u <? 256)%N eqn:H1.
    { destruct (Js.encode_units (v :: rest)) as [t|]; [|discriminate].
      intros [= <-]. rewrite all_chars_app, encode_char_safe. now apply IH2. }
    destruct (Js.code u <? 2048)%N eqn:H2.
    { destruct (Js.encode_units (v :: rest)) as [t|]; [|discriminate].
      intros [= <-]. apply N.ltb_lt in H2.
      rewrite all_chars_app, escape2_safe by exact H2. now apply IH2. }
    destruct (Js.is_high_surrogate (Js.code u)) eqn:Hh.
    { destruct (Js.is_low_surrogate (Js.code v)) eqn:Hl; [|discriminate].
      destruct (Js.encode_units rest) as [t|]; [|discriminate].
      intros [= <-].
      rewrite all_chars_app, escape4_safe by now apply code_point_bounded.
      now apply IH1. }
    destruct (Js.is_low_surrogate (Js.code u)); [discriminate|].
    destruct (Js.encode_units (v :: rest)) as [t|]; [|discriminate].
    intros [= <-]. rewrite all_chars_app, escape3_safe by exact Hu. now apply IH2.
Qed.

(** X10.  The address of the frame is the widget document (the default
    one when [widgetUrl] is absent or empty) followed by the query
    parameters [publicKey], [assistantId] and [host], whose values hold
    only unreserved characters and percent escapes: no credential,
    whatever code units it contains, can add or split a parameter.  A key
    made of unreserved characters appears as it is; an absent one reads
    "undefined". *)
Theorem frame_address_is_safe (p : page) (opts : option Options) (h : host) :
  mountIframeWidget p opts = inr h ->
  exists key assistant host,
    frame_src h =
      widget_document opts +:+ "?publicKey=" +:+ key
        +:+ "&assistantId=" +:+ assistant +:+ "&host=" +:+ host /\
    all_chars url_safe key = true /\
    all_chars url_safe assistant = true /\
    all_chars url_safe host = true /\
    (forall k, opts ≫= publicKey = Some (Js.widen k) ->
       all_chars Js.is_unreserved k = true -> key = k) /\
    (opts ≫= publicKey = None -> key = "undefined").
Proof.
  intros Hmount.
  destruct (mounted_parts p opts h Hmount)
    as (target & position & key & assistant & _ & _ & Hkey & Hassistant & ->).
  cbn [frame_src]. exists key, assistant. eexists. split; [reflexivity|].
  split; [exact (encode_units_safe _ _ Hkey)|].
  split; [exact (encode_units_safe _ _ Hassistant)|].
  split; [apply encode_string_safe|]. split.
  - intros k Hk Hplain. rewrite Hk in Hkey.
    change (Js.encode_units (Js.widen k) = Some key) in Hkey.
    rewrite encode_units_widen in Hkey.
    injection Hkey as <-. now apply encode_string_plain.
  - intros Hk. rewrite Hk in Hkey. vm_compute in Hkey. now injection Hkey as <-.
Qed.

Lemma frame_address_is_safe_witness :
  frame_src Sample.mounted_host =
    "nxl-iframe.html?publicKey=pk&assistantId=aid&host=https%3A%2F%2Fexample.com".
Proof.
  destruct (frame_address_is_safe Sample.page (Some Sample.options) Sample.mounted_host)
    as (key & assistant & host & _); [vm_compute; reflexivity|].
  vm_compute. reflexivity.
Defined.



(** X12.  The [open()] and [close()] of the handle are idempotent: a
    second call in a row changes nothing and posts nothing, and after
    [open()] the flag is true, after [close()] false. *)
Theorem handle_calls_idempotent (h : host) :
  handle_open (handle_open h) = handle_open h /\
  handle_close (handle_close h) = handle_close h /\
  open (handle_open h) = true /\
  open (handle_close h) = false.
Proof.
  unfold handle_open, handle_close.
  destruct (open h) eqn:Ho; cbn [negb];
    rewrite ?Ho; cbn [toggle open set_doc set_frame set_open negb]; rewrite ?Ho;
    cbn [negb]; rewrite ?Ho; easy.
Qed.

End HostProtocol.

(** ** The widget over every sequence of inputs *)

Section SessionFacts.

Import Widget Session.
Local Open Scope act_scope.

Ltac projections :=
  cbn [_isOpen _isConnected _isListening _elements _vapi _mounted attributes
       subscriptions window_Vapi console
       set_isOpen set_isConnected set_isListening set_elements set_vapi
       set_mounted set_attributes set_subscriptions set_console set_window_Vapi
       fab panel mic projection status modeSwitch chat textInput listeners
       set_fab set_panel set_mic set_projection set_status set_modeSwitch
       set_chat set_textInput set_listeners opened closed fst snd] in *.

Ltac bodies :=
  unfold call_started, call_ended, mic_on, mic_off, mic_blocked, stop_failed,
    sendText_failed, load_failed, open, close, type_text, _toggleMode in *;
  unfold _appendMsg, _setStatus, _flashProjectionLine, _render, _pulse,
    console_warn, console_error in *;
  unfold try_catch, seq, modify, on_elements, skip, throw, lift in *.

(** Closes the goals left once a statement has been run on a coherent
    element. *)
Ltac settle_classes :=
  rewrite ?contains_add, ?contains_remove,
    ?contains_add_other, ?contains_remove_other,
    ?contains_toggle_force_other, ?contains_toggle_other by discriminate.

Ltac coherent_after He :=
  bodies; projections; rewrite ?He; projections;
  repeat match goal with
         | |- _ /\ _ => split
         | |- exists _, _ /\ _ => eexists; split; [reflexivity|]
         | |- forall _, _ => intro
         | H : Some _ = Some _ |- _ => injection H as <-
         end;
  projections; settle_classes;
  try first [ eassumption | reflexivity | discriminate | congruence
            | now apply prefix_app_r ].

Lemma gentle_open (aid : option string) : gentle aid open.
Proof.
  intros w (Hm & Hl & e & He & Hopen & Hactive & Hon & Hchat & Hwired).
  unfold kept, coherent. coherent_after He. auto.
Qed.

Lemma gentle_close (aid : option string) : gentle aid close.
Proof.
  intros w (Hm & Hl & e & He & Hopen & Hactive & Hon & Hchat & Hwired).
  unfold kept, coherent. coherent_after He. auto.
Qed.

Lemma gentle_perform (aid : option string) (c : call) : gentle aid (perform c).
Proof.
  destruct c; cbn [perform]; [apply gentle_open | apply gentle_close |].
  intros w Hw. unfold toggle.
  destruct (_isOpen w); [now apply gentle_close | now apply gentle_open].
Qed.

Lemma gentle_toggleMode (aid : option string) : gentle aid _toggleMode.
Proof.
  intros w (Hm & Hl & e & He & Hopen & Hactive & Hon & Hchat & Hwired).
  unfold kept, coherent. coherent_after He. auto.
Qed.

Lemma gentle_type_text (aid : option string) (text : string) : gentle aid (type_text text).
Proof.
  intros w (Hm & Hl & e & He & Hopen & Hactive & Hon & Hchat & Hwired).
  unfold kept, coherent. coherent_after He. auto.
Qed.

Lemma gentle_setStatus (aid : option string) (text : string) : gentle aid (_setStatus text).
Proof.
  intros w (Hm & Hl & e & He & Hopen & Hactive & Hon & Hchat & Hwired).
  unfold kept, coherent. coherent_after He. auto.
Qed.

Lemma gentle_console_warn (aid : option string) (text : string) :
  gentle aid (console_warn text).
Proof.
  intros w (Hm & Hl & e & He & Hopen & Hactive & Hon & Hchat & Hwired).
  unfold kept, coherent. coherent_after He. auto.
Qed.

Lemma gentle_mic_blocked (aid : option string) (err : exn) : gentle aid (mic_blocked err).
Proof.
  intros w (Hm & Hl & e & He & Hopen & Hactive & Hon & Hchat & Hwired).
  unfold kept, coherent. coherent_after He. auto.
Qed.

Lemma gentle_load_failed (aid : option string) (err : exn) : gentle aid (load_failed err).
Proof.
  intros w (Hm & Hl & e & He & Hopen & Hactive & Hon & Hchat & Hwired).
  unfold kept, coherent. coherent_after He. auto.
Qed.

Lemma gentle_stop_failed (aid : option string) (err : exn) : gentle aid (stop_failed err).
Proof.
  intros w (Hm & Hl & e & He & Hopen & Hactive & Hon & Hchat & Hwired).
  unfold kept, coherent. coherent_after He. auto.
Qed.

Lemma gentle_sendText_failed (aid : option string) (err : exn) :
  gentle aid (sendText_failed err).
Proof.
  intros w (Hm & Hl & e & He & Hopen & Hactive & Hon & Hchat & Hwired).
  unfold kept, coherent. coherent_after He. auto.
Qed.

Lemma gentle_mic_off (aid : option string) : gentle aid (try_catch mic_off stop_failed).
Proof.
  intros w (Hm & Hl & e & He & Hopen & Hactive & Hon & Hchat & Hwired).
  unfold kept, coherent. coherent_after He.
Qed.

Lemma gentle_sent (aid : option string) (value : string) :
  gentle aid (try_catch (_appendMsg "user" value ;; on_elements (set_textInput ""))
                sendText_failed).
Proof.
  intros w (Hm & Hl & e & He & Hopen & Hactive & Hon & Hchat & Hwired).
  unfold kept, coherent. coherent_after He; auto.
  apply Forall_app. split; [assumption|]. now repeat constructor.
Qed.

Lemma kept_refl (aid : option string) (w : widget) : coherent aid w -> kept aid w w.
Proof.
  intros Hw. split; [exact Hw|]. split; [reflexivity|].
  intros e He. exists e. easy.
Qed.

Lemma kept_trans (aid : option string) (a b c : widget) :
  kept aid a b -> kept aid b c -> kept aid a c.
Proof.
  intros (Hb & Hvb & Hab) (Hc & Hvc & Hbc).
  split; [exact Hc|]. split; [congruence|].
  intros e He. destruct (Hab e He) as (e1 & He1 & Hp1 & Hl1).
  destruct (Hbc e1 He1) as (e2 & He2 & Hp2 & Hl2).
  exists e2. split; [exact He2|]. split; [now transitivity (chat e1) | congruence].
Qed.

Lemma gentle_skip (aid : option string) : gentle aid skip.
Proof. intros w Hw. now apply kept_refl. Qed.

Lemma gentle_seq (aid : option string) (a b : act) :
  gentle aid a -> gentle aid b -> gentle aid (a ;; b).
Proof.
  intros Ha Hb w Hw. unfold seq. specialize (Ha w Hw).
  destruct (a w) as [[|err] w1]; cbn [snd] in *; [|exact Ha].
  eapply kept_trans; [exact Ha|]. apply Hb. apply Ha.
Qed.

Lemma gentle_try_catch (aid : option string) (body : act) (recover : exn -> act) :
  gentle aid body -> (forall err, gentle aid (recover err)) ->
  gentle aid (try_catch body recover).
Proof.
  intros Ha Hb w Hw. unfold try_catch. specialize (Ha w Hw).
  destruct (body w) as [[|err] w1]; cbn [snd] in *; [exact Ha|].
  eapply kept_trans; [exact Ha|]. apply Hb. apply Ha.
Qed.

Lemma gentle_call_started (aid : option string) : gentle aid call_started.
Proof.
  intros w (Hm & Hl & e & He & Hopen & Hactive & Hon & Hchat & Hwired).
  unfold kept, coherent. coherent_after He. auto.
Qed.

Lemma gentle_call_ended (aid : option string) : gentle aid call_ended.
Proof.
  intros w (Hm & Hl & e & He & Hopen & Hactive & Hon & Hchat & Hwired).
  unfold kept, coherent. coherent_after He.
Qed.

Lemma gentle_pulse (aid : option string) (on : bool) : gentle aid (_pulse on).
Proof.
  intros w (Hm & Hl & e & He & Hopen & Hactive & Hon & Hchat & Hwired).
  unfold kept, coherent. coherent_after He. auto.
Qed.

Lemma gentle_vapi_emit (aid : option string) (name : string) : gentle aid (vapi_emit name).
Proof.
  intros w Hw. unfold vapi_emit.
  destruct (bool_decide _); [|now apply gentle_skip].
  destruct (String.eqb name "call.started"); [now apply gentle_call_started|].
  destruct (String.eqb name "call.ended"); [now apply gentle_call_ended|].
  destruct (String.eqb name "speech.started"); [now apply gentle_pulse|].
  destruct (String.eqb name "speech.ended"); [now apply gentle_pulse|now apply gentle_skip].
Qed.

Lemma gentle_attributes (aid : option string)
    (f : gmap string string -> gmap string string) :
  gentle aid (modify (set_attributes f)).
Proof.
  intros w (Hm & Hl & e & He & Hopen & Hactive & Hon & Hchat & Hwired).
  unfold kept, coherent. coherent_after He. auto.
Qed.

Lemma gentle_attributeChangedCallback (aid : option string) (name : string) :
  gentle aid (attributeChangedCallback name).
Proof.
  intros w Hw. unfold attributeChangedCallback.
  destruct (negb (_mounted w)); [now apply gentle_skip|].
  revert w Hw. fold (gentle aid
    ((if String.eqb name "open"
      then fun w1 => if open_requested w1 then open w1 else close w1 else skip) ;;
     (if String.eqb name "theme" then _applyTheme else skip) ;;
     (if String.eqb name "position" then _applyPosition else skip))).
  repeat apply gentle_seq.
  - destruct (String.eqb name "open"); [|apply gentle_skip].
    intros w Hw. destruct (open_requested w); [now apply gentle_open | now apply gentle_close].
  - destruct (String.eqb name "theme"); [|apply gentle_skip].
    intros w Hw. unfold _applyTheme. now apply gentle_attributes.
  - destruct (String.eqb name "position"); [|apply gentle_skip].
    intros w Hw. unfold _applyPosition. now apply gentle_attributes.
Qed.

Lemma gentle_setAttribute (aid : option string) (name value : string) :
  gentle aid (setAttribute name value).
Proof.
  unfold setAttribute. apply gentle_seq; [apply gentle_attributes|].
  destruct (bool_decide _); [apply gentle_attributeChangedCallback | apply gentle_skip].
Qed.

(** Marking the element as listening keeps it coherent when there is a client. *)
Lemma kept_mic_on (aid : option string) (w : widget) :
  coherent aid w -> is_Some (_vapi w) ->
  kept aid w (snd (try_catch mic_on mic_blocked w)).
Proof.
  intros (Hm & Hl & e & He & Hopen & Hactive & Hon & Hchat & Hwired) Hv.
  unfold kept, coherent. coherent_after He.
Qed.

Lemma kept_warned_mic_on (aid : option string) (text : string) (w : widget) :
  coherent aid w -> is_Some (_vapi w) ->
  kept aid w (snd (try_catch (console_warn text ;; mic_on) mic_blocked w)).
Proof.
  intros (Hm & Hl & e & He & Hopen & Hactive & Hon & Hchat & Hwired) Hv.
  unfold kept, coherent. coherent_after He.
Qed.

Lemma settled_lift (aid : option string) (a : act) (w : widget) :
  kept aid w (snd (a w)) -> settled aid w (lift a w).
Proof. unfold lift. destruct (a w). exact id. Qed.

Lemma settled_finished (aid : option string) (w : widget) :
  coherent aid w -> settled aid w (Finished Normal w).
Proof. apply kept_refl. Qed.

Lemma settled_suspended (aid : option string) (w : widget) (req : request)
    (resume : reply -> widget -> async) :
  coherent aid w -> client_call (req, resume) -> settled aid w (Suspended req w resume).
Proof. intros Hw Hc. split; [now apply kept_refl | exact Hc]. Qed.

(** The methods behind the listeners. *)
Lemma settled_toggleMic (aid aid' : option string) (w : widget) :
  coherent aid w -> settled aid w (_toggleMic aid' w).
Proof.
  intros Hw. unfold _toggleMic. destruct (_vapi w) as [c|]; [|now apply settled_finished].
  destruct (negb (_isListening w)); [apply settled_suspended; [exact Hw | constructor]|].
  destruct (vapi_stop c); [apply settled_suspended; [exact Hw | constructor]|].
  apply settled_lift. now apply gentle_mic_off.
Qed.

Lemma settled_sendText (aid : option string) (w : widget) :
  coherent aid w -> settled aid w (_sendText w).
Proof.
  intros Hw. unfold _sendText.
  pose proof Hw as (Hm & Hl & e & He & Hrest). rewrite He. destruct (Js.is_empty _); [now apply settled_finished|].
  destruct (_vapi w) as [c|].
  - destruct (vapi_sendText c); [apply settled_suspended; [exact Hw | constructor]|].
    apply settled_lift. now apply gentle_console_warn.
  - apply settled_lift. now apply gentle_console_warn.
Qed.

(** The continuations of the calls to the client. *)
Lemma settled_resume (aid : option string) (req : request)
    (resume : reply -> widget -> async) (r : reply) (w : widget) :
  client_call (req, resume) -> coherent aid w -> is_Some (_vapi w) ->
  settled aid w (resume r w).
Proof.
  intros Hcall Hw Hv. inversion Hcall; subst.
  - unfold after_getUserMedia. destruct r; [|apply settled_lift; now apply gentle_mic_blocked].
    destruct (_vapi w) as [c|] eqn:Hc;
      [|apply settled_lift; now apply gentle_mic_blocked].
    destruct (vapi_start c); [apply settled_suspended; [exact Hw | constructor]|].
    destruct (vapi_connectToAssistant c); [apply settled_suspended; [exact Hw | constructor]|].
    apply settled_lift. apply kept_warned_mic_on; [exact Hw|].
    rewrite Hc. now eexists.
  - unfold after_start. destruct r; apply settled_lift;
      [now apply kept_mic_on | now apply gentle_mic_blocked].
  - unfold after_start. destruct r; apply settled_lift;
      [now apply kept_mic_on | now apply gentle_mic_blocked].
  - unfold after_stop. destruct r; apply settled_lift;
      [now apply gentle_mic_off | now apply gentle_stop_failed].
  - unfold after_sendText. destruct r; apply settled_lift;
      [now apply gentle_sent | now apply gentle_sendText_failed].
Qed.

Lemma settled_state (aid : option string) (w : widget) (a : async) :
  settled aid w a -> kept aid w (state_of a) /\ Forall client_call (pending_of a).
Proof.
  destruct a as [o w'|req w' resume]; cbn [settled state_of pending_of].
  - intros H. split; [exact H | constructor].
  - intros [H Hc]. split; [exact H | now repeat constructor].
Qed.

Lemma absorb_parts (a : async) (others : list pending) :
  element (absorb a others) = state_of a /\
  waiting (absorb a others) = (others ++ pending_of a)%list.
Proof.
  destruct a; cbn [absorb element waiting state_of pending_of]; [|easy].
  now rewrite app_nil_r.
Qed.

(** A click or a key on a wired element runs one method, or none. *)
Lemma dispatch_hooked (aid aid' : option string) (w : widget) (e : Elements)
    (ev : dom_event) :
  coherent aid w -> _elements w = Some e -> listeners e = hooks aid' ->
  (exists t, ev = click t) \/ (exists key, ev = keydown key) ->
  exists a, settled aid w a /\ dispatch ev w = (state_of a, pending_of a).
Proof.
  intros Hw He Hls Hev. unfold dispatch. rewrite He, Hls.
  assert (Hlift : forall (a : act) (rest : widget -> widget * list pending),
            kept aid w (snd (a w)) ->
            (forall w1, rest w1 = (w1, [])) ->
            exists a0, settled aid w a0 /\
              match lift a w with
              | Finished _ w1 => rest w1
              | Suspended req w1 resume =>
                  let (w2, ps) := rest w1 in (w2, (req, resume) :: ps)
              end = (state_of a0, pending_of a0)).
  { intros a rest Ha Hrest. exists (lift a w). split; [now apply settled_lift|].
    unfold lift. destruct (a w). cbn. apply Hrest. }
  assert (Hasync : forall (a0 : async) (rest : widget -> widget * list pending),
            settled aid w a0 ->
            (forall w1, rest w1 = (w1, [])) ->
            exists a1, settled aid w a1 /\
              match a0 with
              | Finished _ w1 => rest w1
              | Suspended req w1 resume =>
                  let (w2, ps) := rest w1 in (w2, (req, resume) :: ps)
              end = (state_of a1, pending_of a1)).
  { intros a0 rest Ha Hrest. exists a0. split; [exact Ha|].
    destruct a0; cbn; rewrite Hrest; reflexivity. }
  destruct Hev as [[t ->] | [key ->]].
  - destruct t;
      cbn [fire hooks on_target on_type on_run target_eqb ev_target ev_type ev_key
           click andb String.eqb Ascii.eqb Bool.eqb run_handler].
    + apply Hlift; [|reflexivity]. now apply gentle_perform with (c := CToggle).
    + apply Hlift; [|reflexivity]. now apply gentle_close.
    + apply Hasync; [|reflexivity]. now apply settled_toggleMic.
    + apply Hlift; [|reflexivity]. now apply gentle_toggleMode.
    + apply Hasync; [|reflexivity]. now apply settled_sendText.
    + exists (Finished Normal w). split; [now apply settled_finished | reflexivity].
  - cbn [fire hooks on_target on_type on_run target_eqb ev_target ev_type ev_key
         keydown andb String.eqb Ascii.eqb Bool.eqb run_handler].
    destruct (String.eqb key "Enter").
    + apply (Hasync (_sendText w) (fun w1 => (w1, []))); [|reflexivity].
      now apply settled_sendText.
    + exists (Finished Normal w). split; [now apply settled_finished | reflexivity].
Qed.

(** The client is created at most once, and only then are the six
    listeners added, to an element that had none. *)
Lemma init_coherent (pk aid : option string) (w : widget) :
  coherent aid w -> _vapi w = None ->
  coherent aid (snd (try_catch (_initVapiClient pk aid) load_failed w)) /\
  forall e, _elements w = Some e ->
    exists e', _elements (snd (try_catch (_initVapiClient pk aid) load_failed w)) = Some e' /\
      chat e' = chat e.
Proof.
  intros (Hm & Hl & e & He & Hopen & Hactive & Hon & Hchat & Hwired) Hv.
  assert (Hls : listeners e = []).
  { destruct Hwired as [H | [[c Hc] _]]; [exact H | congruence]. }
  assert (Hquiet : _isListening w = false).
  { destruct (_isListening w); [|reflexivity].
    destruct (Hl eq_refl) as [c Hc]. congruence. }
  unfold try_catch at 1 2, _initVapiClient. cbn beta.
  destruct (window_Vapi w) as [sdk|].
  2: { unfold coherent, wired. coherent_after He; auto. }
  destruct (construct sdk pk) as [c|]; [destruct (vapi_on c) as [accepts|]|].
  - unfold vapi_subscribe, coherent, wired.
    destruct (accepts "call.started"), (accepts "call.ended"),
      (accepts "speech.started"), (accepts "speech.ended");
      coherent_after He; rewrite ?Hls; auto; try (right; split; eauto).
  - unfold coherent, wired. coherent_after He; rewrite ?Hls; auto;
      try (right; split; eauto).
  - unfold coherent, wired. coherent_after He; auto.
Qed.

Lemma toggleAttribute_other (name other : string) (force : bool)
    (m : gmap string string) :
  name <> other -> toggleAttribute name force m !! other = m !! other.
Proof.
  intros Hne. unfold toggleAttribute. destruct force.
  - destruct (m !! name); [reflexivity | now apply lookup_insert_ne].
  - now apply lookup_delete_ne.
Qed.

(** The element as the synchronous part of [connectedCallback] leaves it. *)
Lemma fresh_coherent (attrs : gmap string string) (present : option Sdk) :
  exists w2,
    connectedCallback (constructor attrs present) =
      match present with
      | Some _ =>
          Finished Normal
            (state_of (after_load (attrs !! "public-key") (attrs !! "assistant-id")
                         Resolved w2))
      | None =>
          Suspended (LoadScript VAPI_CDN) w2
            (after_load (attrs !! "public-key") (attrs !! "assistant-id"))
      end /\
    coherent (attrs !! "assistant-id") w2 /\ _vapi w2 = None /\
    _isOpen w2 = open_requested (constructor attrs present) /\
    window_Vapi w2 = present /\ subscriptions w2 = [] /\ _isListening w2 = false /\
    console w2 =
      (if missing (attrs !! "public-key") || missing (attrs !! "assistant-id")
       then [(LWarn,
              "[NexusLumaAI] Missing public-key and/or assistant-id attributes on <nxl-ai-widget>.")]
       else []) /\
    exists e2,
      _elements w2 = Some e2 /\ listeners e2 = [] /\ chat e2 = [] /\
      status e2 = "Idle" /\ textInput e2 = "".
Proof.
  unfold connectedCallback, _ensureVapi, constructor, getAttribute. projections.
  destruct (missing (attrs !! "public-key") || missing (attrs !! "assistant-id"));
    unfold _applyTheme, _applyPosition; bodies; projections.
  all: match goal with |- context [open_requested ?w] =>
         assert (Hreq : open_requested w = open_requested (constructor attrs present))
       end.
  1, 3: unfold open_requested, getAttribute; projections;
        rewrite lookup_insert_ne by discriminate;
        rewrite !toggleAttribute_other by discriminate; reflexivity.
  all: unfold constructor in Hreq; rewrite Hreq; clear Hreq.
  all: match goal with |- context [open_requested ?w] => destruct (open_requested w) end.
  all: projections; destruct present; eexists; (split; [reflexivity|]).
  all: unfold coherent, wired; projections.
  all: repeat match goal with
              | |- _ /\ _ => split
              | |- exists _, _ /\ _ => eexists; split; [reflexivity|]
              | |- forall _, _ => intro
              end; projections; settle_classes;
       try first [ reflexivity | discriminate | now left | now constructor ].
Qed.

Lemma boot_sound (attrs : gmap string string) (present : option Sdk) :
  sound (attrs !! "public-key") (attrs !! "assistant-id") (boot attrs present).
Proof.
  destruct (fresh_coherent attrs present) as (w2 & Heq & Hw2 & Hv & _).
  unfold boot. rewrite Heq. destruct present as [sdk|].
  - cbn [absorb after_load]. unfold lift, sound. cbn [element waiting].
    destruct (init_coherent (attrs !! "public-key") (attrs !! "assistant-id") w2 Hw2 Hv)
      as [Hc _].
    destruct (try_catch _ _ w2) as [o w3]. cbn [state_of snd] in *.
    split; [exact Hc|]. destruct (_vapi w3); [constructor | now left].
  - cbn [absorb]. split; [exact Hw2|]. cbn [element waiting]. rewrite Hv. now right.
Qed.

Lemma kept_later (aid : option string) (w w' : widget) : kept aid w w' -> later w w'.
Proof.
  intros (_ & Hv & He). split; [intros c Hc; congruence|].
  intros e Hel. destruct (He e Hel) as (e' & He' & Hp & Hls).
  exists e'. split; [exact He'|]. split; [exact Hp | intros _; exact Hls].
Qed.

(** A world in which the element changed gently and some client calls
    were added to the waiting ones. *)
Lemma sound_kept (pk aid : option string) (s : world) (w' : widget)
    (started : list pending) :
  sound pk aid s -> kept aid (element s) w' ->
  Forall client_call started ->
  (_vapi (element s) = None -> started = []) ->
  sound pk aid {| element := w'; waiting := (waiting s ++ started)%list |}.
Proof.
  intros [Hc Hw] (Hc' & Hv & _) Hstarted Hnone. split; [exact Hc'|].
  cbn [element waiting]. rewrite Hv.
  destruct (_vapi (element s)).
  - apply Forall_app. now split.
  - rewrite (Hnone eq_refl), app_nil_r. exact Hw.
Qed.

Lemma deliver_sound (pk aid : option string) (ev : dom_event) (s : world) :
  (exists t, ev = click t) \/ (exists key, ev = keydown key) ->
  sound pk aid s ->
  sound pk aid (deliver ev s) /\ later (element s) (element (deliver ev s)).
Proof.
  intros Hev Hs. pose proof Hs as [Hc Hw].
  pose proof Hc as (_ & _ & e & He & _ & _ & _ & _ & Hwired).
  unfold deliver. destruct Hwired as [Hls | [Hv Hls]].
  - unfold dispatch. rewrite He, Hls. cbn [fire].
    split; [|apply kept_later with aid; now apply kept_refl].
    apply sound_kept; [exact Hs | now apply kept_refl | constructor | reflexivity].
  - destruct (dispatch_hooked aid aid (element s) e ev Hc He Hls Hev) as (a & Ha & ->).
    destruct (settled_state _ _ _ Ha) as [Hk Hp].
    split; [|now apply kept_later with aid].
    apply sound_kept; try assumption.
    intros Hnone. rewrite Hnone in Hv. destruct Hv; discriminate.
Qed.

Lemma apply_sound (pk aid : option string) (a : act) (s : world) :
  gentle aid a -> sound pk aid s ->
  sound pk aid (apply a s) /\ later (element s) (element (apply a s)).
Proof.
  intros Ha Hs. pose proof (Ha (element s) (proj1 Hs)) as Hk.
  split; [|now apply kept_later with aid].
  unfold apply. rewrite <- (app_nil_r (waiting s)).
  apply sound_kept; [exact Hs | exact Hk | constructor | reflexivity].
Qed.

Lemma step_sound (pk aid : option string) (i : input) (s : world) :
  sound pk aid s ->
  sound pk aid (step i s) /\ later (element s) (element (step i s)).
Proof.
  intros Hs. pose proof Hs as [Hc Hw].
  destruct i as [t|key|text|name|c|name value| |sdk|i r]; cbn [step].
  - apply deliver_sound; [left; now exists t | exact Hs].
  - apply deliver_sound; [right; now exists key | exact Hs].
  - apply apply_sound; [apply gentle_type_text | exact Hs].
  - apply apply_sound; [apply gentle_vapi_emit | exact Hs].
  - apply apply_sound; [apply gentle_perform | exact Hs].
  - apply apply_sound; [apply gentle_setAttribute | exact Hs].
  - unfold connectedCallback. rewrite (proj1 Hc). cbn [absorb].
    destruct s. split; [exact Hs|]. apply kept_later with aid. now apply kept_refl.
  - assert (Hk : kept aid (element s) (set_window_Vapi sdk (element s))).
    { destruct Hc as (Hm & Hl & e & He & Hrest).
      split; [|split; [reflexivity|intros e0 He0; exists e0; easy]].
      split; [exact Hm|]. split; [exact Hl|]. now exists e. }
    split; [|now apply kept_later with aid].
    rewrite <- (app_nil_r (waiting s)).
    apply sound_kept; [exact Hs | exact Hk | constructor | reflexivity].
  - destruct (waiting s !! i) as [[req resume]|] eqn:Hi.
    2: { split; [exact Hs|]. apply kept_later with aid. now apply kept_refl. }
    destruct (absorb_parts (resume r (element s)) (delete i (waiting s))) as [Hel Hwt].
    destruct (_vapi (element s)) as [c|] eqn:Hv.
    + assert (Hcall : client_call (req, resume)).
      { rewrite Forall_lookup in Hw. exact (Hw i _ Hi). }
      assert (Ha : settled aid (element s) (resume r (element s))).
      { apply settled_resume with req; [exact Hcall | exact Hc |]. rewrite Hv. now eexists. }
      destruct (settled_state _ _ _ Ha) as [Hk Hp].
      split; [|rewrite Hel; now apply kept_later with aid].
      split; [rewrite Hel; apply Hk|].
      rewrite Hel, Hwt. destruct Hk as (_ & -> & _). rewrite Hv.
      apply Forall_app. split; [now apply Forall_delete | exact Hp].
    + assert (Hload : i = 0 /\ resume = after_load pk aid /\ delete i (waiting s) = []).
      { destruct Hw as [Hw | Hw]; rewrite Hw in Hi |- *.
        - discriminate.
        - destruct i; [|discriminate]. cbn in Hi. now injection Hi as <- <-. }
      destruct Hload as (-> & -> & Hdel). rewrite Hdel in *. clear Hdel.
      pose proof Hc as (_ & _ & e & He & _ & _ & _ & _ & Hwired).
      assert (Hls : listeners e = []).
      { destruct Hwired as [H | [[c Hc'] _]]; [exact H | congruence]. }
      assert (Hsound : forall (a : act),
                coherent aid (snd (a (element s))) ->
                (exists e', _elements (snd (a (element s))) = Some e' /\
                            chat e `prefix_of` chat e') ->
                sound pk aid (absorb (lift a (element s)) []) /\
                later (element s) (element (absorb (lift a (element s)) []))).
      { intros a Hca (e' & He' & Hp). unfold lift.
        destruct (a (element s)) as [o w1]. cbn [absorb element snd] in *.
        split.
        - split; [exact Hca|]. cbn [element waiting].
          destruct (_vapi w1); [constructor | now left].
        - split; [intros c0 Hc0; congruence|].
          intros e0 He0. rewrite He in He0. injection He0 as <-.
          exists e'. split; [exact He'|]. split; [exact Hp|]. congruence. }
      destruct r as [|err]; cbn [after_load]; apply Hsound.
      * apply init_coherent; assumption.
      * destruct (init_coherent pk aid (element s) Hc Hv) as [_ H].
        destruct (H e He) as (e' & He' & Hchat). exists e'. now rewrite Hchat.
      * apply gentle_load_failed. exact Hc.
      * destruct (gentle_load_failed aid err (element s) Hc) as (_ & _ & H).
        destruct (H e He) as (e' & He' & Hp & _). now exists e'.
Qed.

Lemma later_refl (w : widget) : later w w.
Proof. split; [auto|]. intros e He. exists e. easy. Qed.

Lemma later_trans (a b c : widget) : later a b -> later b c -> later a c.
Proof.
  intros [Hv1 He1] [Hv2 He2]. split; [auto|].
  intros e He. destruct (He1 e He) as (e1 & Hb & Hp1 & Hl1).
  destruct (He2 e1 Hb) as (e2 & Hc & Hp2 & Hl2).
  exists e2. split; [exact Hc|]. split; [now transitivity (chat e1)|].
  intros Hne. rewrite <- (Hl1 Hne). apply Hl2. now rewrite (Hl1 Hne).
Qed.

Lemma run_sound (pk aid : option string) (inputs : list input) (s : world) :
  sound pk aid s ->
  sound pk aid (run inputs s) /\ later (element s) (element (run inputs s)).
Proof.
  revert s. induction inputs as [|i inputs IH]; intros s Hs.
  - split; [exact Hs | apply later_refl].
  - destruct (step_sound pk aid i s Hs) as [H1 L1].
    destruct (IH (step i s) H1) as [H2 L2].
    split; [exact H2 | now apply later_trans with (element (step i s))].
Qed.

Lemma run_app (inputs more : list input) (s : world) :
  run (inputs ++ more) s = run more (run inputs s).
Proof. unfold run. apply fold_left_app. Qed.

Lemma setAttribute_created (attrs : gmap string string) (present : option Sdk)
    (name value : string) :
  setAttribute name value (constructor attrs present) =
    (Normal, constructor (<[name := value]> attrs) present).
Proof.
  unfold setAttribute, attributeChangedCallback, seq, modify, skip.
  cbn [_mounted constructor negb set_attributes attributes].
  destruct (bool_decide _); reflexivity.
Qed.

(** Before it is attached the element is as its constructor left it, with
    the attributes written since and the global as it is now, as long as
    neither [open()] nor [toggle()] was called. *)
Lemma created_shut (before : list input) (attrs : gmap string string)
    (present : option Sdk) :
  forallb shut before = true ->
  exists attrs' present', run before (created attrs present) = created attrs' present'.
Proof.
  revert attrs present. induction before as [|i before IH]; intros attrs present.
  - intros _. now exists attrs, present.
  - cbn [forallb]. intros [Hi Hrest]%andb_true_iff.
    change (run (i :: before) (created attrs present))
      with (run before (step i (created attrs present))).
    destruct i as [t|key|text|name|c|name value| |sdk|n r]; try discriminate.
    + now apply IH.
    + now apply IH.
    + now apply IH.
    + replace (step (Emit name) (created attrs present)) with (created attrs present);
        [now apply IH|].
      unfold step, apply, vapi_emit. cbn [element created constructor subscriptions].
      rewrite bool_decide_eq_false_2 by apply not_elem_of_nil. reflexivity.
    + destruct c; try discriminate. now apply IH.
    + replace (step (SetAttribute name value) (created attrs present))
        with (created (<[name := value]> attrs) present); [now apply IH|].
      unfold step, apply. cbn [element created]. rewrite setAttribute_created. reflexivity.
    + apply (IH attrs sdk Hrest).
    + now apply IH.
Qed.

(** X13.  Provided neither [open()] nor [toggle()] is called on the
    element before it is attached, in every state the widget reaches
    after [connectedCallback], under any sequence of clicks, keys, edits,
    client notifications, API calls, attribute changes, re-attachments
    and replies to its pending requests, it is mounted and rendered, the
    panel carries [open] and the fab [active] exactly when [_isOpen] is
    true, the microphone carries [on] exactly when [_isListening] is
    true, and [_isListening] is true only when there is a client. *)
Theorem classes_mirror_flags (attrs : gmap string string) (present : option Sdk)
    (before after : list input) :
  forallb shut before = true ->
  let s := run (before ++ Attach :: after) (created attrs present) in
  _mounted (element s) = true /\
  (_isListening (element s) = true -> is_Some (_vapi (element s))) /\
  exists e,
    _elements (element s) = Some e /\
    ClassList.contains "open" (panel e) = _isOpen (element s) /\
    ClassList.contains "active" (fab e) = _isOpen (element s) /\
    ClassList.contains "on" (mic e) = _isListening (element s).
Proof.
  intros Hshut s.
  destruct (created_shut before attrs present Hshut) as (attrs' & present' & Hbefore).
  assert (Hs : s = run after (boot attrs' present')).
  { subst s. rewrite run_app, Hbefore. reflexivity. }
  rewrite Hs.
  destruct (run_sound _ _ after _ (boot_sound attrs' present'))
    as [[(Hm & Hl & e & He & Hopen & Hactive & Hon & _) _] _].
  split; [exact Hm|]. split; [exact Hl|]. exists e. easy.
Qed.

Lemma classes_mirror_flags_witness :
  _mounted
    (element
       (run ([SetAttribute "open" "true"; Call CClose; Click Fab]
               ++ Attach :: [Call CToggle; Click Mic; Settle 0 Resolved])
          (created Sample.attrs (Some (Sample.sdk_of Sample.full_client))))) = true.
Proof.
  apply (classes_mirror_flags Sample.attrs (Some (Sample.sdk_of Sample.full_client))
           [SetAttribute "open" "true"; Call CClose; Click Fab]
           [Call CToggle; Click Mic; Settle 0 Resolved]).
  reflexivity.
Defined.

(** X14.  In every reachable state the elements carry either no listener
    or exactly the six listeners of [_initVapiClient], once, and the
    latter only with a client; the microphone listener holds the
    assistant id the element had when it was attached. *)
Theorem handlers_wired_at_most_once (attrs : gmap string string) (present : option Sdk)
    (inputs : list input) :
  exists e,
    _elements (element (run inputs (boot attrs present))) = Some e /\
    (listeners e = [] \/
     (is_Some (_vapi (element (run inputs (boot attrs present)))) /\
      listeners e = hooks (attrs !! "assistant-id"))).
Proof.
  destruct (run_sound _ _ inputs _ (boot_sound attrs present))
    as [[(_ & _ & e & He & _ & _ & _ & _ & Hwired) _] _].
  exists e. split; [exact He | exact Hwired].
Qed.

(** X15.  The transcript only grows, and only by entries of the user:
    the transcript after some inputs is a prefix of the transcript after
    any further inputs, and every entry has the class [msg user]. *)
Theorem transcript_only_grows (attrs : gmap string string) (present : option Sdk)
    (inputs more : list input) :
  exists e e',
    _elements (element (run inputs (boot attrs present))) = Some e /\
    _elements (element (run (inputs ++ more) (boot attrs present))) = Some e' /\
    chat e `prefix_of` chat e' /\
    Forall (fun entry => fst entry = "msg user") (chat e').
Proof.
  destruct (run_sound _ _ inputs _ (boot_sound attrs present)) as [Hs _].
  destruct (run_sound _ _ more _ Hs) as [Hs' [_ Hl]].
  rewrite run_app.
  destruct Hs as [(_ & _ & e & He & _) _].
  destruct (Hl e He) as (e' & He' & Hp & _).
  destruct Hs' as [(_ & _ & e2 & He2 & _ & _ & _ & Hchat & _) _].
  exists e, e'. split; [exact He|]. split; [exact He'|]. split; [exact Hp|].
  rewrite He' in He2. now injection He2 as <-.
Qed.

(** X16.  Once the widget holds a client it holds the same one for ever:
    no input replaces or removes it. *)
Theorem client_handle_is_stable (attrs : gmap string string) (present : option Sdk)
    (inputs more : list input) (c : Client) :
  _vapi (element (run inputs (boot attrs present))) = Some c ->
  _vapi (element (run (inputs ++ more) (boot attrs present))) = Some c.
Proof.
  intros Hc.
  destruct (run_sound _ _ inputs _ (boot_sound attrs present)) as [Hs _].
  destruct (run_sound _ _ more _ Hs) as [_ [Hv _]].
  rewrite run_app. now apply Hv.
Qed.

Lemma client_handle_is_stable_witness :
  _vapi (element (run ([] ++ [Click Mic; Settle 0 Resolved; Settle 0 (Rejected (Failure "start"));
                               Emit "call.ended"; Define None; Attach])
                    (boot Sample.attrs (Some (Sample.sdk_of Sample.full_client)))))
    = Some Sample.full_client.
Proof.
  apply client_handle_is_stable. vm_compute. reflexivity.
Defined.

(** *** The methods one by one *)

(** X17.  The talk toggle, from a widget that is not listening.  When the
    permission is refused the status reads "Mic blocked" and nothing is
    asked of the client.  When it is granted the client's [start] is
    called with the assistant id if the client has one, and
    [connectToAssistant] only if it has no [start].  When that call
    resolves the widget is listening, the microphone [on] and the status
    "Listening..."; when it throws the widget is not listening and the
    status reads "Mic blocked". *)
Theorem toggleMic_start_protocol (w : widget) (e : Elements) (c : Client)
    (assistantId : option string) (err : exn) :
  _elements w = Some e -> _vapi w = Some c -> _isListening w = false ->
  (exists w2 e2,
      settle [Rejected err] (_toggleMic assistantId w) = Finished Normal w2 /\
      _isListening w2 = false /\ _elements w2 = Some e2 /\
      status e2 = "Mic blocked" /\ mic e2 = mic e) /\
  (vapi_start c = true ->
     settle [Resolved] (_toggleMic assistantId w) =
       Suspended (VapiStart assistantId) w after_start) /\
  (vapi_start c = false -> vapi_connectToAssistant c = true ->
     settle [Resolved] (_toggleMic assistantId w) =
       Suspended (VapiConnectToAssistant assistantId) w after_start) /\
  (vapi_start c = true \/ vapi_connectToAssistant c = true ->
     (exists w2 e2,
         settle [Resolved; Resolved] (_toggleMic assistantId w) = Finished Normal w2 /\
         _isListening w2 = true /\ _elements w2 = Some e2 /\
         status e2 = "Listening..." /\ ClassList.contains "on" (mic e2) = true) /\
     (exists w2 e2,
         settle [Resolved; Rejected err] (_toggleMic assistantId w) = Finished Normal w2 /\
         _isListening w2 = false /\ _elements w2 = Some e2 /\
         status e2 = "Mic blocked" /\ mic e2 = mic e)).
Proof.
  intros He Hc Hl. unfold _toggleMic. rewrite Hc, Hl. cbn [negb settle].
  split; [|split; [|split]].
  - cbn [after_getUserMedia]. bodies. projections. rewrite He. projections.
    eexists _, _. split; [reflexivity|]. projections. easy.
  - intros Hs. unfold after_getUserMedia. now rewrite Hc, Hs.
  - intros Hs Hcon. unfold after_getUserMedia. now rewrite Hc, Hs, Hcon.
  - intros Hany. unfold after_getUserMedia. rewrite Hc.
    assert (Hboth :
      (exists w2 e2,
         after_start Resolved w = Finished Normal w2 /\
         _isListening w2 = true /\ _elements w2 = Some e2 /\
         status e2 = "Listening..." /\ ClassList.contains "on" (mic e2) = true) /\
      (exists w2 e2,
         after_start (Rejected err) w = Finished Normal w2 /\
         _isListening w2 = false /\ _elements w2 = Some e2 /\
         status e2 = "Mic blocked" /\ mic e2 = mic e)).
    { cbn [after_start]. bodies. projections. rewrite He. projections. split.
      - eexists _, _. split; [reflexivity|]. projections.
        repeat (split; [reflexivity|]). apply contains_add.
      - eexists _, _. split; [reflexivity|]. projections. easy. }
    destruct (vapi_start c); [exact Hboth|].
    destruct (vapi_connectToAssistant c); [exact Hboth|].
    destruct Hany; discriminate.
Qed.

Lemma toggleMic_start_protocol_witness :
  settle [Resolved] (_toggleMic (Some "aid") (Sample.ready Sample.full_client)) =
    Suspended (VapiStart (Some "aid")) (Sample.ready Sample.full_client) after_start.
Proof.
  assert (He : exists e, _elements (Sample.ready Sample.full_client) = Some e)
    by (eexists; vm_compute; reflexivity).
  destruct He as [e He].
  destruct (toggleMic_start_protocol (Sample.ready Sample.full_client) e Sample.full_client
              (Some "aid") (Failure "denied") He) as (_ & H & _);
    [vm_compute; reflexivity | vm_compute; reflexivity |].
  apply H. reflexivity.
Defined.

(** X18.  With text in the field and no client, or a client without
    [sendText], [_sendText] logs one warning and returns: nothing is
    sent, no entry is added and the text stays in the field. *)
Theorem sendText_without_capability (w : widget) (e : Elements) :
  _elements w = Some e -> Js.trim (textInput e) <> "" ->
  (forall c, _vapi w = Some c -> vapi_sendText c = false) ->
  _sendText w =
    Finished Normal
      (set_console
         (fun l => (l ++ [(LWarn,
            "[NexusLumaAI] sendText API not available in this SDK version.")])%list) w).
Proof.
  intros He Hvalue Hcap. unfold _sendText. rewrite He.
  destruct (Js.trim (textInput e)); [contradiction|]. cbn [Js.is_empty].
  destruct (_vapi w) as [c|]; [rewrite (Hcap c eq_refl)|]; reflexivity.
Qed.

Lemma sendText_without_capability_witness :
  exists w1,
    _sendText (Sample.typed "hello" Sample.load_failure) = Finished Normal w1 /\
    _elements w1 = _elements (Sample.typed "hello" Sample.load_failure).
Proof.
  assert (He : exists e, _elements (Sample.typed "hello" Sample.load_failure) = Some e /\
                         Js.trim (textInput e) = "hello")
    by (eexists; split; vm_compute; reflexivity).
  destruct He as (e & He & Ht).
  eexists. split.
  - apply (sendText_without_capability _ e He).
    + rewrite Ht. discriminate.
    + intros c Hc. vm_compute in Hc. discriminate.
  - reflexivity.
Defined.

(** X19.  The mode switch flips the class [text-mode] of the panel and
    labels the button with the other mode ("Voice" in text mode, "Text"
    otherwise); it leaves the [open] class, the transcript, the status,
    the microphone and every field of the session alone, and a second
    switch restores the classes of the panel. *)
Theorem toggleMode_twice (w : widget) (e : Elements) :
  _elements w = Some e ->
  exists e1 e2,
    _toggleMode w = (Normal, set_elements (Some e1) w) /\
    _toggleMode (set_elements (Some e1) w) = (Normal, set_elements (Some e2) w) /\
    ClassList.contains "text-mode" (panel e1) =
      negb (ClassList.contains "text-mode" (panel e)) /\
    modeSwitch e1 = (if ClassList.contains "text-mode" (panel e1) then "Voice" else "Text") /\
    ClassList.contains "open" (panel e1) = ClassList.contains "open" (panel e) /\
    chat e1 = chat e /\ status e1 = status e /\ mic e1 = mic e /\
    panel e2 = panel e /\
    modeSwitch e2 = (if ClassList.contains "text-mode" (panel e) then "Voice" else "Text").
Proof.
  intros He. unfold _toggleMode, on_elements. rewrite He. projections.
  eexists _, _. split; [reflexivity|]. split; [reflexivity|]. projections.
  split; [apply contains_toggle_force|]. split; [reflexivity|].
  split; [now apply contains_toggle_other|].
  repeat (split; [reflexivity|]).
  rewrite toggle_toggle. easy.
Qed.

Lemma toggleMode_twice_witness :
  exists e1 e2,
    _elements (snd (_toggleMode (Sample.ready Sample.full_client))) = Some e1 /\
    modeSwitch e1 = "Voice" /\
    _elements (snd (_toggleMode (snd (_toggleMode (Sample.ready Sample.full_client)))))
      = Some e2 /\
    modeSwitch e2 = "Text".
Proof.
  assert (He : exists e, _elements (Sample.ready Sample.full_client) = Some e /\
                         ClassList.contains "text-mode" (panel e) = false)
    by (eexists; split; vm_compute; reflexivity).
  destruct He as (e & He & Hmode).
  destruct (toggleMode_twice (Sample.ready Sample.full_client) e He)
    as (e1 & e2 & H1 & H2 & Hc1 & Hl1 & _ & _ & _ & _ & _ & Hl2).
  exists e1, e2. rewrite H1. cbn [snd]. rewrite H2. cbn [snd _elements set_elements].
  rewrite Hl1, Hc1, Hl2, Hmode. easy.
Defined.

Lemma toggleAttribute_lookup (name key : string) (force : bool)
    (m : gmap string string) :
  toggleAttribute name force m !! key =
    if decide (key = name)
    then (if force then Some (default "" (m !! name)) else None)
    else m !! key.
Proof.
  unfold toggleAttribute. destruct (decide (key = name)) as [->|Hne].
  - destruct force; [|apply lookup_delete_eq].
    destruct (m !! name) eqn:Hm; [now rewrite Hm | apply lookup_insert_eq].
  - destruct force; [|now apply lookup_delete_ne].
    destruct (m !! name); [reflexivity | now apply lookup_insert_ne].
Qed.

Lemma toggleAttribute_twice (name : string) (force : bool) (m : gmap string string) :
  toggleAttribute name force (toggleAttribute name force m) = toggleAttribute name force m.
Proof.
  apply map_eq. intros key. rewrite !toggleAttribute_lookup.
  repeat case_decide; subst; try congruence; now destruct force.
Qed.

Lemma toggleAttribute_swap (a b : string) (fa fb : bool) (m : gmap string string) :
  a <> b ->
  toggleAttribute a fa (toggleAttribute b fb m) =
  toggleAttribute b fb (toggleAttribute a fa m).
Proof.
  intros Hab. apply map_eq. intros key. rewrite !toggleAttribute_lookup.
  repeat case_decide; subst; congruence || reflexivity.
Qed.

Lemma toggleAttribute_same (name : string) (force : bool) (m : gmap string string) :
  is_Some (toggleAttribute name force m !! name) <-> force = true.
Proof.
  rewrite toggleAttribute_lookup, decide_True by reflexivity.
  destruct force; split; eauto; try discriminate. intros [? ?]. discriminate.
Qed.

(** X20.  [_applyTheme] sets [data-theme-dark] exactly when the theme, in
    lower case and taken as "dark" when absent or empty, is "dark", and
    [data-theme-light] exactly when it is "light": never both, neither for
    any other value.  No other attribute changes, and applying the theme
    twice is applying it once. *)
Theorem applyTheme_exclusive (w : widget) :
  (is_Some (attributes (snd (_applyTheme w)) !! "data-theme-dark") <->
     Js.toLowerCase (or_else (attributes w !! "theme") "dark") = "dark") /\
  (is_Some (attributes (snd (_applyTheme w)) !! "data-theme-light") <->
     Js.toLowerCase (or_else (attributes w !! "theme") "dark") = "light") /\
  ~ (is_Some (attributes (snd (_applyTheme w)) !! "data-theme-dark") /\
     is_Some (attributes (snd (_applyTheme w)) !! "data-theme-light")) /\
  (forall name, name <> "data-theme-dark" -> name <> "data-theme-light" ->
     attributes (snd (_applyTheme w)) !! name = attributes w !! name) /\
  snd (_applyTheme (snd (_applyTheme w))) = snd (_applyTheme w).
Proof.
  unfold _applyTheme, modify, getAttribute. projections.
  set (theme := Js.toLowerCase (or_else (attributes w !! "theme") "dark")).
  assert (Hdark :
    is_Some (toggleAttribute "data-theme-light" (String.eqb theme "light")
               (toggleAttribute "data-theme-dark" (String.eqb theme "dark") (attributes w))
             !! "data-theme-dark") <-> theme = "dark").
  { rewrite toggleAttribute_other by discriminate.
    rewrite toggleAttribute_same. apply String.eqb_eq. }
  assert (Hlight :
    is_Some (toggleAttribute "data-theme-light" (String.eqb theme "light")
               (toggleAttribute "data-theme-dark" (String.eqb theme "dark") (attributes w))
             !! "data-theme-light") <-> theme = "light").
  { rewrite toggleAttribute_same. apply String.eqb_eq. }
  split; [exact Hdark|]. split; [exact Hlight|]. split; [|split].
  - intros [Hd Hl]. apply Hdark in Hd. apply Hlight in Hl. congruence.
  - intros name Hd Hl. now rewrite !toggleAttribute_other by congruence.
  - rewrite !toggleAttribute_other by discriminate. fold theme.
    unfold set_attributes. projections. f_equal.
    rewrite (toggleAttribute_swap "data-theme-dark" "data-theme-light") by discriminate.
    now rewrite !toggleAttribute_twice.
Qed.

(** On a wired element: the fab, the close button and the text field. *)
Lemma dispatch_wired (w : widget) (e : Elements) (aid : option string) :
  _elements w = Some e -> listeners e = hooks aid ->
  dispatch (click Fab) w = (snd (toggle w), []) /\
  dispatch (click Close) w = (snd (close w), []) /\
  dispatch (keydown "Enter") w = dispatch (click Send) w /\
  forall key, key <> "Enter" -> dispatch (keydown key) w = (w, []).
Proof.
  intros He Hls. unfold dispatch. rewrite He, Hls.
  cbn [fire hooks on_target on_type on_run target_eqb ev_target ev_type ev_key
       click keydown andb String.eqb Ascii.eqb Bool.eqb run_handler].
  split; [unfold lift; now destruct (toggle w)|].
  split; [unfold lift; now destruct (close w)|].
  split; [reflexivity|].
  intros key Hkey. apply String.eqb_neq in Hkey. now rewrite Hkey.
Qed.

(** X21.  When the SDK is on the page, its constructor returns a client
    and the subscriptions (if the client has [on]) succeed, the widget
    starts with that client, subscribed to the four notifications, the
    status "Idle" and the six listeners; a click on the fab then toggles
    the panel and a click on the close button closes it. *)
Theorem ready_widget_wired (attrs : gmap string string) (sdk : Sdk) (c : Client)
    (s : script) :
  construct sdk (attrs !! "public-key") = Some c ->
  (forall accepts name, vapi_on c = Some accepts -> accepts name = true) ->
  _vapi (start attrs (Some sdk) s) = Some c /\
  subscriptions (start attrs (Some sdk) s) =
    match vapi_on c with
    | Some _ => ["call.started"; "call.ended"; "speech.started"; "speech.ended"]
    | None => []
    end /\
  (exists e,
      _elements (start attrs (Some sdk) s) = Some e /\
      listeners e = hooks (attrs !! "assistant-id") /\ status e = "Idle") /\
  dispatch (click Fab) (start attrs (Some sdk) s) =
    (snd (toggle (start attrs (Some sdk) s)), []) /\
  dispatch (click Close) (start attrs (Some sdk) s) =
    (snd (close (start attrs (Some sdk) s)), []).
Proof.
  intros Hc Hon.
  destruct (fresh_coherent attrs (Some sdk))
    as (w2 & Heq & _ & Hv & _ & Hsdk & Hsubs & _ & _ & e2 & He2 & Hls & _ & Hst & _).
  assert (Hstart : exists e,
            _vapi (start attrs (Some sdk) s) = Some c /\
            subscriptions (start attrs (Some sdk) s) =
              match vapi_on c with
              | Some _ => ["call.started"; "call.ended"; "speech.started"; "speech.ended"]
              | None => []
              end /\
            _elements (start attrs (Some sdk) s) = Some e /\
            listeners e = hooks (attrs !! "assistant-id") /\ status e = "Idle").
  { unfold start. rewrite Heq. cbn [after_load state_of].
    unfold _initVapiClient, vapi_subscribe. bodies. rewrite Hsdk, Hc.
    destruct (vapi_on c) as [accepts|] eqn:Hac.
    - rewrite !(Hon accepts _ eq_refl). projections. rewrite He2. cbn [state_of]. projections.
      eexists. split; [reflexivity|]. rewrite Hsubs. split; [reflexivity|].
      split; [reflexivity|]. projections. rewrite Hls, Hst. easy.
    - projections. rewrite He2. cbn [state_of]. projections.
      eexists. split; [reflexivity|]. rewrite Hsubs. split; [reflexivity|].
      split; [reflexivity|]. projections. rewrite Hls, Hst. easy. }
  destruct Hstart as (e & Hvapi & Hsub & He & Hhooks & Hidle).
  split; [exact Hvapi|]. split; [exact Hsub|].
  split; [exists e; easy|].
  destruct (dispatch_wired _ e (attrs !! "assistant-id") He Hhooks) as (H1 & H2 & _).
  split; assumption.
Qed.

Lemma ready_widget_wired_witness :
  _isOpen (fst (dispatch (click Fab) (Sample.ready Sample.full_client))) = true.
Proof.
  destruct (ready_widget_wired Sample.attrs (Sample.sdk_of Sample.full_client)
              Sample.full_client (ScriptLoads None)) as (_ & _ & _ & H & _).
  - reflexivity.
  - intros accepts name [= <-]. reflexivity.
  - unfold Sample.ready. rewrite H. vm_compute. reflexivity.
Defined.

(** X22.  When a subscription throws, the widget reports "Init error" and
    attaches no listener, so that no event on its elements has any
    effect, but it keeps the client it had just created. *)
Theorem init_error_keeps_handle (attrs : gmap string string) (sdk : Sdk) (c : Client)
    (accepts : string -> bool) (s : script) :
  construct sdk (attrs !! "public-key") = Some c ->
  vapi_on c = Some accepts ->
  accepts "call.started" && accepts "call.ended" &&
    accepts "speech.started" && accepts "speech.ended" = false ->
  _vapi (start attrs (Some sdk) s) = Some c /\
  exists e,
    _elements (start attrs (Some sdk) s) = Some e /\
    listeners e = [] /\ status e = "Init error" /\
    forall ev, dispatch ev (start attrs (Some sdk) s) = (start attrs (Some sdk) s, []).
Proof.
  intros Hc Hac Hsome.
  destruct (fresh_coherent attrs (Some sdk))
    as (w2 & Heq & _ & Hv & _ & Hsdk & Hsubs & _ & _ & e2 & He2 & Hls & _ & Hst & _).
  assert (Hstart : exists e,
            _vapi (start attrs (Some sdk) s) = Some c /\
            _elements (start attrs (Some sdk) s) = Some e /\
            listeners e = [] /\ status e = "Init error").
  { unfold start. rewrite Heq. cbn [after_load state_of].
    unfold _initVapiClient, vapi_subscribe. bodies. rewrite Hsdk, Hc, Hac.
    destruct (accepts "call.started"), (accepts "call.ended"),
      (accepts "speech.started"), (accepts "speech.ended"); try discriminate;
      projections; rewrite He2; cbn [state_of]; projections;
      (eexists; split; [reflexivity|]; split; [reflexivity|]; projections; easy). }
  destruct Hstart as (e & Hvapi & He & Hnone & Hstatus).
  split; [exact Hvapi|]. exists e. repeat (split; [assumption|]).
  intros ev. unfold dispatch. now rewrite He, Hnone.
Qed.

Lemma init_error_keeps_handle_witness :
  exists c,
    _vapi (start Sample.attrs
             (Some (Sample.sdk_of
                {| vapi_on := Some (fun name => String.eqb name "call.started");
                   vapi_start := true; vapi_connectToAssistant := false;
                   vapi_stop := true; vapi_sendText := true |}))
             (ScriptLoads None)) = Some c.
Proof.
  eexists.
  eapply (init_error_keeps_handle Sample.attrs _ _
            (fun name => String.eqb name "call.started")); reflexivity.
Defined.

(** X23.  When the script loads without defining [window.Vapi], the
    error is logged but the status stays "Idle": there is no client and
    no listener, and nothing in the panel reports the failure. *)
Theorem script_without_global (attrs : gmap string string) :
  _vapi (start attrs None (ScriptLoads None)) = None /\
  (exists l, console (start attrs None (ScriptLoads None)) =
               (l ++ [(LError, "[NexusLumaAI] Vapi SDK unavailable on window.")])%list) /\
  exists e,
    _elements (start attrs None (ScriptLoads None)) = Some e /\
    listeners e = [] /\ status e = "Idle" /\
    failure_text (status e) = false.
Proof.
  destruct (fresh_coherent attrs None)
    as (w2 & Heq & _ & Hv & _ & Hsdk & _ & _ & _ & e2 & He2 & Hls & _ & Hst & _).
  unfold start. rewrite Heq. cbn [after_load state_of].
  unfold _initVapiClient. bodies. projections. cbn [state_of]. projections.
  split; [exact Hv|]. split; [eexists; reflexivity|].
  exists e2. rewrite Hst. easy.
Qed.

(** X24.  In the text field the Enter key does what a click on the send
    button does, and no other key does anything; Enter on a blank field
    does nothing either. *)
Theorem only_enter_sends (w : widget) (e : Elements) (assistantId : option string) :
  _elements w = Some e -> listeners e = hooks assistantId ->
  dispatch (keydown "Enter") w = dispatch (click Send) w /\
  (forall key, key <> "Enter" -> dispatch (keydown key) w = (w, [])) /\
  (Js.all_white (textInput e) = true -> dispatch (keydown "Enter") w = (w, [])).
Proof.
  intros He Hls.
  destruct (dispatch_wired w e assistantId He Hls) as (_ & _ & H1 & H2).
  split; [exact H1|]. split; [exact H2|].
  intros Hblank. unfold dispatch. rewrite He, Hls.
  cbn [fire hooks on_target on_type on_run target_eqb ev_target ev_type ev_key
       click keydown andb String.eqb Ascii.eqb Bool.eqb run_handler].
  unfold _sendText. rewrite He, (trim_all_white _ Hblank). reflexivity.
Qed.

Lemma only_enter_sends_witness :
  dispatch (keydown "a") (Sample.typed "hello" (Sample.ready Sample.full_client)) =
    (Sample.typed "hello" (Sample.ready Sample.full_client), []).
Proof.
  assert (He : exists e, _elements (Sample.typed "hello" (Sample.ready Sample.full_client))
                           = Some e /\ listeners e = hooks (Some "aid"))
    by (eexists; split; vm_compute; reflexivity).
  destruct He as (e & He & Hls).
  destruct (only_enter_sends _ e (Some "aid") He Hls) as (_ & H & _).
  apply H. discriminate.
Defined.

(** X25.  When the client announces the end of the call, a widget
    subscribed to it stops listening and is disconnected, the microphone
    loses [on] and the status reads "Disconnected", everything else being
    as before; a widget that is not subscribed ignores the
    notification. *)
Theorem call_ended_resets (w : widget) (e : Elements) :
  _elements w = Some e ->
  if bool_decide ("call.ended" ∈ subscriptions w)
  then
    exists e1,
      vapi_emit "call.ended" w =
        (Normal, set_elements (Some e1)
                   (set_isListening false (set_isConnected false w))) /\
      ClassList.contains "on" (mic e1) = false /\ status e1 = "Disconnected" /\
      chat e1 = chat e /\ panel e1 = panel e /\ fab e1 = fab e /\
      textInput e1 = textInput e /\ listeners e1 = listeners e
  else vapi_emit "call.ended" w = (Normal, w).
Proof.
  intros He. unfold vapi_emit. destruct (bool_decide _); [|reflexivity].
  cbn [String.eqb Ascii.eqb Bool.eqb]. bodies. projections. rewrite He. projections.
  eexists. split; [reflexivity|]. projections. split; [apply contains_remove | easy].
Qed.

Lemma call_ended_resets_witness :
  _isListening (snd (vapi_emit "call.ended" Sample.listening)) = false.
Proof.
  assert (He : exists e, _elements Sample.listening = Some e)
    by (eexists; vm_compute; reflexivity).
  destruct He as [e He].
  pose proof (call_ended_resets Sample.listening e He) as H.
  destruct (bool_decide _) eqn:Hsub in H; [|vm_compute in Hsub; discriminate].
  destruct H as (e1 & -> & _). reflexivity.
Defined.

Lemma init_keeps_open (pk aid : option string) (w : widget) (e : Elements) :
  _elements w = Some e ->
  _isOpen (snd (try_catch (_initVapiClient pk aid) load_failed w)) = _isOpen w.
Proof.
  intros He. unfold try_catch, _initVapiClient. cbn beta.
  destruct (window_Vapi w) as [sdk|]; [|bodies; projections; reflexivity].
  destruct (construct sdk pk) as [c|]; [destruct (vapi_on c) as [accepts|]|].
  - unfold vapi_subscribe.
    destruct (accepts "call.started"), (accepts "call.ended"),
      (accepts "speech.started"), (accepts "speech.ended");
      bodies; projections; rewrite He; projections; reflexivity.
  - bodies; projections; rewrite He; projections; reflexivity.
  - bodies; projections; rewrite He; projections; reflexivity.
Qed.

Lemma coherent_define (aid : option string) (sdk : option Sdk) (w : widget) :
  coherent aid w -> coherent aid (set_window_Vapi sdk w).
Proof.
  intros (Hm & Hl & e & He & Hrest). split; [exact Hm|]. split; [exact Hl|]. now exists e.
Qed.

Lemma start_coherent (attrs : gmap string string) (present : option Sdk) (s : script) :
  coherent (attrs !! "assistant-id") (start attrs present s).
Proof.
  destruct (fresh_coherent attrs present) as (w2 & Heq & Hco & Hv & _).
  unfold start. rewrite Heq. destruct present as [sdk|].
  - cbn [after_load]. unfold lift.
    destruct (init_coherent (attrs !! "public-key") (attrs !! "assistant-id") w2 Hco Hv)
      as [H _].
    destruct (try_catch _ _ w2). exact H.
  - destruct s as [err|sdk]; cbn [after_load]; unfold lift.
    + pose proof (gentle_load_failed (attrs !! "assistant-id") err w2 Hco) as [H _].
      destruct (load_failed err w2). exact H.
    + destruct (init_coherent (attrs !! "public-key") (attrs !! "assistant-id")
                  (set_window_Vapi sdk w2)) as [H _];
        [now apply coherent_define | exact Hv |].
      destruct (try_catch _ _ _). exact H.
Qed.

(** The synchronous part of [connectedCallback] on an element whose
    flag [_isOpen] was already written. *)
Lemma fresh_early (attrs : gmap string string) (present : option Sdk) (early : bool) :
  exists w2 e2,
    connectedCallback (set_isOpen early (constructor attrs present)) =
      match present with
      | Some _ =>
          Finished Normal
            (state_of (after_load (attrs !! "public-key") (attrs !! "assistant-id")
                         Resolved w2))
      | None =>
          Suspended (LoadScript VAPI_CDN) w2
            (after_load (attrs !! "public-key") (attrs !! "assistant-id"))
      end /\
    _elements w2 = Some e2 /\
    _isOpen w2 = open_requested (constructor attrs present) || early /\
    ClassList.contains "open" (panel e2) = open_requested (constructor attrs present) /\
    ClassList.contains "active" (fab e2) = open_requested (constructor attrs present).
Proof.
  unfold connectedCallback, _ensureVapi, constructor, getAttribute. projections.
  destruct (missing (attrs !! "public-key") || missing (attrs !! "assistant-id"));
    unfold _applyTheme, _applyPosition; bodies; projections.
  all: match goal with |- context [open_requested ?w] =>
         assert (Hreq : open_requested w = open_requested (constructor attrs present))
       end.
  1, 3: unfold open_requested, getAttribute; projections;
        rewrite lookup_insert_ne by discriminate;
        rewrite !toggleAttribute_other by discriminate; reflexivity.
  all: unfold constructor in Hreq; rewrite Hreq; clear Hreq.
  all: match goal with |- context [open_requested ?w] => destruct (open_requested w) end.
  all: projections; destruct present; eexists _, _; (split; [reflexivity|]).
  all: projections; split; [reflexivity|]; split; [reflexivity|].
  all: settle_classes; split; vm_compute; reflexivity.
Qed.

Lemma init_keeps_panel (pk aid : option string) (w : widget) (e : Elements) :
  _elements w = Some e ->
  exists e',
    _elements (snd (try_catch (_initVapiClient pk aid) load_failed w)) = Some e' /\
    panel e' = panel e /\ fab e' = fab e.
Proof.
  intros He. unfold try_catch, _initVapiClient. cbn beta.
  destruct (window_Vapi w) as [sdk|];
    [|bodies; projections; exists e; repeat split; exact He].
  destruct (construct sdk pk) as [c|]; [destruct (vapi_on c) as [accepts|]|].
  - unfold vapi_subscribe.
    destruct (accepts "call.started"), (accepts "call.ended"),
      (accepts "speech.started"), (accepts "speech.ended");
      bodies; projections; rewrite He; projections;
      eexists; (split; [reflexivity|]); split; reflexivity.
  - bodies; projections; rewrite He; projections;
      eexists; (split; [reflexivity|]); split; reflexivity.
  - bodies; projections; rewrite He; projections;
      eexists; (split; [reflexivity|]); split; reflexivity.
Qed.

(** X26.  At attachment the panel is shown opened exactly when the
    element has an [open] attribute whose value is not the string "false"
    (any other value, the empty one included, opens it), whatever becomes
    of the SDK.  [connectedCallback] never resets [_isOpen]: the flag agrees
    with the panel when it was false before the attachment, as it is after
    the constructor; but [open()] on a detached element throws after it has
    set the flag, and the widget attached after such a call has [_isOpen]
    true whatever the attribute says. *)
Theorem open_attribute_at_mount (attrs : gmap string string) (present : option Sdk)
    (s : script) (early : bool) :
  let requested :=
    match attrs !! "open" with
    | Some v => negb (String.eqb v "false")
    | None => false
    end in
  let d := attach (set_isOpen early (constructor attrs present)) s in
  attach (set_isOpen false (constructor attrs present)) s = start attrs present s /\
  open (constructor attrs present) =
    (Thrown (TypeError "Cannot read properties of undefined"),
     set_isOpen true (constructor attrs present)) /\
  toggle (constructor attrs present) = open (constructor attrs present) /\
  _isOpen d = requested || early /\
  exists e,
    _elements d = Some e /\
    ClassList.contains "open" (panel e) = requested /\
    ClassList.contains "active" (fab e) = requested.
Proof.
  intros requested d.
  split; [reflexivity|]. split; [reflexivity|]. split; [reflexivity|].
  destruct (fresh_early attrs present early)
    as (w2 & e2 & Heq & He2 & Hflag & Hpanel & Hfab).
  change (open_requested (constructor attrs present)) with requested in *.
  subst d. unfold attach. rewrite Heq. destruct present as [sdk|].
  - cbn [after_load]. unfold lift.
    pose proof (init_keeps_open (attrs !! "public-key") (attrs !! "assistant-id")
                  w2 e2 He2) as Hopen.
    destruct (init_keeps_panel (attrs !! "public-key") (attrs !! "assistant-id")
                w2 e2 He2) as (e & He & Hp & Hf).
    destruct (try_catch _ _ w2) as [o w3]. cbn [state_of snd] in *.
    split; [now rewrite Hopen|]. exists e. rewrite Hp, Hf. easy.
  - destruct s as [err|sdk]; cbn [after_load].
    + bodies. projections. rewrite He2. cbn [state_of]. projections.
      split; [exact Hflag|]. eexists. split; [reflexivity|]. projections. easy.
    + unfold lift.
      pose proof (init_keeps_open (attrs !! "public-key") (attrs !! "assistant-id")
                    (set_window_Vapi sdk w2) e2 He2) as Hopen.
      destruct (init_keeps_panel (attrs !! "public-key") (attrs !! "assistant-id")
                  (set_window_Vapi sdk w2) e2 He2) as (e & He & Hp & Hf).
      destruct (try_catch _ _ _) as [o w3]. cbn [state_of snd] in *.
      split; [now rewrite Hopen|]. exists e. rewrite Hp, Hf. easy.
Qed.

(** X27.  Writing an attribute before the element is attached only
    records it (the callback does nothing yet); attaching the element
    then does what it would have done with the attribute in the
    markup. *)
Theorem attribute_before_mount (attrs : gmap string string) (present : option Sdk)
    (name value : string) :
  setAttribute name value (constructor attrs present) =
    (Normal, constructor (<[name := value]> attrs) present) /\
  connectedCallback (snd (setAttribute name value (constructor attrs present))) =
    connectedCallback (constructor (<[name := value]> attrs) present).
Proof.
  assert (H : setAttribute name value (constructor attrs present) =
              (Normal, constructor (<[name := value]> attrs) present)).
  { unfold setAttribute, attributeChangedCallback, seq, modify, skip.
    cbn [_mounted constructor negb set_attributes attributes].
    destruct (bool_decide _); reflexivity. }
  split; [exact H | now rewrite H].
Qed.

(** X28.  There is no guard against a second click while the first is
    pending: two clicks on the microphone before the permission is
    answered lead, once it is granted, to two calls of the client's
    [start]. *)
Theorem double_click_starts_twice (w : widget) (e : Elements) (c : Client)
    (assistantId : option string) :
  _elements w = Some e -> listeners e = hooks assistantId ->
  _vapi w = Some c -> vapi_start c = true -> _isListening w = false ->
  run [Click Mic; Click Mic; Settle 0 Resolved; Settle 0 Resolved]
      {| element := w; waiting := [] |} =
    {| element := w;
       waiting := [(VapiStart assistantId, after_start);
                   (VapiStart assistantId, after_start)] |}.
Proof.
  intros He Hls Hc Hs Hl.
  assert (Hclick : forall ps,
            step (Click Mic) {| element := w; waiting := ps |} =
              {| element := w;
                 waiting := (ps ++ [(GetUserMedia, after_getUserMedia assistantId)])%list |}).
  { intros ps. cbn [step]. unfold deliver, dispatch. cbn [element waiting].
    rewrite He, Hls.
    cbn [fire hooks on_target on_type on_run target_eqb ev_target ev_type ev_key
         click andb String.eqb Ascii.eqb Bool.eqb run_handler].
    unfold _toggleMic. rewrite Hc, Hl. reflexivity. }
  unfold run. cbn [fold_left]. rewrite !Hclick. cbn [app step waiting element].
  cbn [lookup list_lookup delete list_delete absorb].
  unfold after_getUserMedia. rewrite Hc, Hs. cbn [absorb app element waiting].
  cbn [lookup list_lookup delete list_delete].
  rewrite Hc, Hs. reflexivity.
Qed.

Lemma double_click_starts_twice_witness :
  map fst (waiting (run [Click Mic; Click Mic; Settle 0 Resolved; Settle 0 Resolved]
                      {| element := Sample.ready Sample.full_client; waiting := [] |})) =
    [VapiStart (Some "aid"); VapiStart (Some "aid")].
Proof.
  assert (He : exists e, _elements (Sample.ready Sample.full_client) = Some e /\
                         listeners e = hooks (Some "aid"))
    by (eexists; split; vm_compute; reflexivity).
  destruct He as (e & He & Hls).
  rewrite (double_click_starts_twice _ e Sample.full_client (Some "aid") He Hls);
    reflexivity || (vm_compute; reflexivity).
Defined.

End SessionFacts.
